(** * KMT reaction scraper: a shallow embedding of [kmt_sracper.py]

    The development follows the source file top-down: the Python string
    primitives the scraper relies on, the SMILES parser, the three
    extraction strategies over a parsed document, the pagination resolver,
    the page processor and finally the crawl loop of [KMTScraper.scrape].

    Characters are modelled by [ascii], read as code points below 256;
    Python integers by [Z]. *)

From Stdlib Require Import ZArith Ascii String List Bool Lia DecimalString.
From Stdlib Require DecimalPos.
From stdpp Require Import base gmap strings list.

Local Open Scope Z_scope.
Local Open Scope list_scope.

(** ** Python string primitives *)

Module Py.

(** Truth value of a [str]: only the empty string is falsy. *)
Definition truthy (s : string) : bool :=
  match s with
  | EmptyString => false
  | String _ _ => true
  end.

(** [s.startswith(p)]. *)
Definition startswith (s p : string) : bool := String.prefix p s.

(** [sub in s]: some suffix of [s] starts with [sub]. *)
Fixpoint contains (sub s : string) : bool :=
  String.prefix sub s ||
  match s with
  | EmptyString => false
  | String _ s' => contains sub s'
  end.

(** [s.split(sep)] for a non-empty separator, scanning left to right for
    non-overlapping occurrences.  [skip] counts the characters of an
    occurrence that are still to be consumed.  Every call site in the
    scraper passes a literal, non-empty separator (Python raises
    [ValueError] on an empty one). *)
Fixpoint split_from (sep s : string) (skip : nat) : list string :=
  match s with
  | EmptyString => [EmptyString]
  | String c s' =>
      match skip with
      | S k => split_from sep s' k
      | O =>
          if String.prefix sep s
          then EmptyString :: split_from sep s' (Nat.pred (String.length sep))
          else match split_from sep s' O with
               | h :: t => String c h :: t
               | [] => [String c EmptyString]
               end
      end
  end.

Definition split (s sep : string) : list string := split_from sep s O.

(** The characters [str.isspace] accepts among the code points below 256. *)
Definition isspace (c : ascii) : bool :=
  let n := nat_of_ascii c in
  ((9 <=? n) && (n <=? 13) || (28 <=? n) && (n <=? 32)
   || (n =? 133) || (n =? 160))%nat.

Fixpoint lstrip (s : string) : string :=
  match s with
  | EmptyString => EmptyString
  | String c s' => if isspace c then lstrip s' else s
  end.

Fixpoint rstrip (s : string) : string :=
  match s with
  | EmptyString => EmptyString
  | String c s' =>
      match rstrip s' with
      | EmptyString => if isspace c then EmptyString else String c EmptyString
      | r => String c r
      end
  end.

(** [s.strip()]. *)
Definition strip (s : string) : string := rstrip (lstrip s).

(** [s.lower()] on code points below 256: the ASCII capitals and the
    Latin-1 capitals other than the multiplication sign move up by 32. *)
Definition lower_char (c : ascii) : ascii :=
  let n := nat_of_ascii c in
  if ((65 <=? n) && (n <=? 90)
      || (192 <=? n) && (n <=? 222) && negb (n =? 215))%nat
  then ascii_of_nat (n + 32) else c.

Fixpoint lower (s : string) : string :=
  match s with
  | EmptyString => EmptyString
  | String c s' => String (lower_char c) (lower s')
  end.

(** Decimal digits, [int(digits)] and [str(n)].  The interpreter refuses
    either conversion beyond 4300 digits ([ValueError]); the two functions
    below are the conversions where it accepts them, and the statements
    that rest on a conversion bound the digits. *)
Definition isdigit (c : ascii) : bool :=
  let n := nat_of_ascii c in ((48 <=? n) && (n <=? 57))%nat.

Definition digit_value (c : ascii) : Z := Z.of_nat (nat_of_ascii c) - 48.

Fixpoint int_from (acc : Z) (s : string) : Z :=
  match s with
  | EmptyString => acc
  | String c s' => int_from (10 * acc + digit_value c) s'
  end.

Definition int (s : string) : Z := int_from 0 s.

(** [str(n)]: the decimal numeral of an integer. *)
Definition str (n : Z) : string := NilZero.string_of_int (Z.to_int n).

End Py.

(** ** Data model *)

Record ReactionData := {
  reaction_smiles : string;
  reactant_smiles : list string;
  reagent_smiles : list string;
  product_smiles : list string;
  source_url : string;
  scraped_at : string
}.

(** The dictionary [_parse_smiles_string] returns: its three keys. *)
Record parsed := {
  reactants : list string;
  reagents : list string;
  products : list string
}.

(** ** SMILES parsing *)

(** The comprehension [[s for s in field.split(".") if s]]. *)
Definition split_fragments (field : string) : list string :=
  List.filter Py.truthy (Py.split field ".").

(** [parts[i]] on a list known to be long enough; the default is never
    reached at the call sites below. *)
Definition item (parts : list string) (i : nat) : string :=
  nth i parts EmptyString.

Definition _parse_smiles_string (smiles : string) : option parsed :=
  if negb (Py.truthy smiles) then None
  else
    let parts := Py.split smiles ">" in
    let parts' :=
      if (length parts <? 3)%nat then
        let parts := Py.split smiles ">>" in
        if (length parts =? 2)%nat
        then Some [item parts 0; EmptyString; item parts 1]
        else None
      else Some parts in
    match parts' with
    | None => None
    | Some parts =>
        Some {| reactants := split_fragments (item parts 0);
                reagents := split_fragments (item parts 1);
                products := split_fragments (item parts 2) |}
    end.

(** ** The parsed document

    BeautifulSoup hands the scraper a tree of tags and text nodes.  The
    tree is modelled with the accessors the scraper calls: [find_all],
    [get], indexing by attribute and [get_text(strip=True)]. *)

#[warnings="-register-all"]
Inductive node :=
| Tag (name : string) (attrs : gmap string string) (contents : list node)
| NavigableString (text : string).

(** [el.descendants]: every node below [el], in document order. *)
Fixpoint descendants (el : node) : list node :=
  match el with
  | Tag _ _ contents => List.flat_map (fun c => c :: descendants c) contents
  | NavigableString _ => []
  end.

(** [el.get(key)]. *)
Definition get (el : node) (key : string) : option string :=
  match el with
  | Tag _ attrs _ => attrs !! key
  | NavigableString _ => None
  end.

Definition is_tag (el : node) : bool :=
  match el with Tag _ _ _ => true | NavigableString _ => false end.

Definition has_name (names : list string) (el : node) : bool :=
  match el with
  | Tag name _ _ => existsb (String.eqb name) names
  | NavigableString _ => false
  end.

Definition has_attr (key : string) (el : node) : bool :=
  match get el key with Some _ => true | None => false end.

(** [el.find_all(names)], [el.find_all(name, key=True)] and
    [el.find_all(attrs={key: True})]. *)
Definition find_all_named (names : list string) (el : node) : list node :=
  List.filter (has_name names) (descendants el).

Definition find_all_named_with (name key : string) (el : node) : list node :=
  List.filter (fun d => has_name [name] d && has_attr key d) (descendants el).

Definition find_all_with (key : string) (el : node) : list node :=
  List.filter (fun d => is_tag d && has_attr key d) (descendants el).

(** [el.get_text(strip=True)]: the text nodes below [el], each stripped,
    the empty ones skipped, concatenated. *)
Definition stripped_strings (el : node) : list string :=
  List.flat_map
    (fun d => match d with
              | NavigableString text =>
                  let text := Py.strip text in
                  if Py.truthy text then [text] else []
              | Tag _ _ _ => []
              end)
    (descendants el).

Definition get_text_strip (el : node) : string :=
  String.concat EmptyString (stripped_strings el).

(** ** The collaborators

    The HTML parser, the regular-expression engine behind [re.findall],
    the HTTP session, the clock and the iteration order of a Python [set]
    lie outside the scraper.  [fetch] and [now] are indexed by the number
    of pages scraped so far, so that the same URL may answer differently
    over time.  [set_iter] enumerates a set in some order, each element
    once. *)

Class Collaborators := {
  parse_html : string -> node;
  re_findall : string -> string -> list string;
  fetch : Z -> string -> option string;
  now : Z -> string;
  set_iter : gset string -> list string;
  set_iter_perm : forall X : gset string, set_iter X ≡ₚ elements X
}.

(** ** The scraper object *)

Record KMTScraper := {
  doi : string;
  collected_reactions : list ReactionData
}.

Definition BASE_URL : string := "https://kmt.vander-lingen.nl".

Definition default_doi : string := "10.1021/jacsau.4c01276".

(** [KMTScraper(doi)]. *)
Definition __init__ (doi : string) : KMTScraper :=
  {| doi := doi; collected_reactions := [] |}.

Definition _build_url (self : KMTScraper) (start : Z) : string :=
  BASE_URL +:+ "/data/reaction/doi/" +:+ doi self +:+ "/start/" +:+ Py.str start.

(** [_fetch_page]: the page text, or [None] when the request raised. *)
Definition _fetch_page `{world : Collaborators} (pages_scraped : Z) (url : string)
  : option string := fetch pages_scraped url.

(** ** Extraction methods *)

Definition data_attr : string := "data-reaction-smiles".

Definition _extract_from_data_attributes (soup : node) : list string :=
  List.flat_map
    (fun el => match get el data_attr with
               | Some v => if Py.truthy v then [Py.strip v] else []
               | None => []
               end)
    (find_all_with data_attr soup).

(** The double quote, kept out of the literals below, and the backslash
    and double quote that the raw patterns hold wherever they name it. *)
Definition dq : string := String (ascii_of_nat 34) EmptyString.

Definition bdq : string := String (ascii_of_nat 92) dq.

Definition js_patterns : list string :=
  [ "reactions\.push\(\s*['" +:+ bdq +:+ "]([^'" +:+ bdq +:+ "]+)['" +:+ bdq +:+ "]\s*\)";
    "reaction[Ss]miles\s*[=:]\s*['" +:+ bdq +:+ "]([^'" +:+ bdq +:+ "]+)['" +:+ bdq +:+ "]";
    "smiles\s*:\s*['" +:+ bdq +:+ "]([^'" +:+ bdq +:+ "]+>>?[^'" +:+ bdq +:+ "]+)['" +:+ bdq +:+ "]" ]%string.

Definition _extract_from_javascript `{world : Collaborators} (html : string)
  : list string :=
  List.flat_map
    (fun pattern => List.filter (Py.contains ">") (re_findall pattern html))
    js_patterns.

(** The character class [[A-Za-z0-9\[\]()=#@+\-\\/.>]]. *)
Definition smiles_char (c : ascii) : bool :=
  let n := nat_of_ascii c in
  ((65 <=? n) && (n <=? 90) || (97 <=? n) && (n <=? 122)
   || (48 <=? n) && (n <=? 57)
   || existsb (Nat.eqb n) [91; 93; 40; 41; 61; 35; 64; 43; 45; 92; 47; 46; 62])%nat.

(** [re.match(r'^[...]+$', text)]: one or more characters of the class up
    to the end of the text, or up to a final newline. *)
Fixpoint smiles_cell_match (text : string) : bool :=
  match text with
  | EmptyString => false
  | String c rest =>
      smiles_char c &&
      match rest with
      | EmptyString => true
      | String nl EmptyString =>
          (nat_of_ascii nl =? 10)%nat || smiles_cell_match rest
      | _ => smiles_cell_match rest
      end
  end.

Definition _extract_from_tables (soup : node) : list string :=
  List.flat_map (fun table =>
    List.flat_map (fun row =>
      List.flat_map (fun cell =>
        let text := get_text_strip cell in
        if Py.contains ">" text && Py.contains "." text
        then if smiles_cell_match text then [text] else []
        else [])
        (find_all_named ["td"; "th"]%string row))
      (find_all_named ["tr"]%string table))
    (find_all_named ["table"]%string soup).

(** ** Pagination *)

Fixpoint string_drop (n : nat) (s : string) : string :=
  match n, s with
  | O, _ => s
  | S n', String _ s' => string_drop n' s'
  | S _, EmptyString => EmptyString
  end.

Fixpoint take_digits (s : string) : string :=
  match s with
  | EmptyString => EmptyString
  | String c s' => if Py.isdigit c then String c (take_digits s') else EmptyString
  end.

(** A match of [/start/(\d+)] anchored at the head of [s]: the digits of
    group 1, taken greedily. *)
Definition start_match_at (s : string) : option string :=
  if String.prefix "/start/" s then
    let digits := take_digits (string_drop 7 s) in
    if Py.truthy digits then Some digits else None
  else None.

(** [re.search(r"/start/(\d+)", s)]: group 1 of the leftmost match. *)
Fixpoint re_search_start (s : string) : option string :=
  match start_match_at s with
  | Some digits => Some digits
  | None =>
      match s with
      | EmptyString => None
      | String _ s' => re_search_start s'
      end
  end.

(** The anchors whose text announces a following page. *)
Definition next_link (link : node) : bool :=
  Py.contains "next" (Py.lower (get_text_strip link)).

Definition _find_next_page_url (self : KMTScraper) (soup : node)
  (current_url : string) : option string :=
  match List.find next_link (find_all_named_with "a" "href" soup) with
  | Some link =>
      let href := default EmptyString (get link "href") in
      Some (if Py.startswith href "http" then href else BASE_URL +:+ href)
  | None =>
      match re_search_start current_url with
      | Some digits => Some (_build_url self (Py.int digits + 10))
      | None => None
      end
  end.

(** ** Page processing *)

(** The set [all_smiles] that [_process_page] fills from the three scans. *)
Definition all_smiles `{world : Collaborators} (html : string) : gset string :=
  let soup := parse_html html in
  ∅ ∪ list_to_set (_extract_from_data_attributes soup)
    ∪ list_to_set (_extract_from_javascript html)
    ∪ list_to_set (_extract_from_tables soup).

Definition _process_page `{world : Collaborators} (html url timestamp : string)
  : list ReactionData :=
  List.flat_map
    (fun smiles =>
       match _parse_smiles_string smiles with
       | Some p =>
           match products p with
           | [] => []
           | _ :: _ =>
               [ {| reaction_smiles := smiles;
                    reactant_smiles := reactants p;
                    reagent_smiles := reagents p;
                    product_smiles := products p;
                    source_url := url;
                    scraped_at := timestamp |} ]
           end
       | None => []
       end)
    (set_iter (all_smiles html)).

(** ** Main scraping logic *)

(** What the loop does to the outside world, recorded for the claims about
    fetching and processing. *)
Inductive event :=
| Fetched (url : string)
| Processed (url : string) (reactions : list ReactionData).

Record loop_state := {
  current_url : option string;
  seen_urls : gset string;
  pages_scraped : Z;
  collected : list ReactionData;
  events : list event
}.

(** The inner [for r in reactions] loop: append [r] unless a record with
    the same [reaction_smiles] is already collected. *)
Definition add_reaction (acc : list ReactionData) (r : ReactionData)
  : list ReactionData :=
  if decide (reaction_smiles r ∈
             (list_to_set (reaction_smiles <$> acc) : gset string))
  then acc else acc ++ [r].

Definition merge (acc reactions : list ReactionData) : list ReactionData :=
  fold_left add_reaction reactions acc.

(** The guard of the [while]: a present, non-empty URL and room for a page. *)
Definition loop_cond (max_pages : Z) (st : loop_state) : bool :=
  match current_url st with
  | Some url => Py.truthy url && (pages_scraped st <? max_pages)
  | None => false
  end.

Inductive outcome :=
| Continue (st : loop_state)
| Break (st : loop_state).

(** One pass through the body of the [while], entered with the guard true. *)
Definition loop_body `{world : Collaborators} (self : KMTScraper) (st : loop_state)
  : outcome :=
  match current_url st with
  | None => Break st
  | Some url =>
      if decide (url ∈ seen_urls st) then Break st
      else
        let seen := {[url]} ∪ seen_urls st in
        let fetched := events st ++ [Fetched url] in
        let stopped :=
          {| current_url := Some url; seen_urls := seen;
             pages_scraped := pages_scraped st;
             collected := collected st; events := fetched |} in
        match _fetch_page (pages_scraped st) url with
        | None => Break stopped
        | Some html =>
            if negb (Py.truthy html) then Break stopped
            else
              let reactions :=
                _process_page html url (now (pages_scraped st)) in
              let soup := parse_html html in
              Continue
                {| current_url := _find_next_page_url self soup url;
                   seen_urls := seen;
                   pages_scraped := pages_scraped st + 1;
                   collected := merge (collected st) reactions;
                   events := fetched ++ [Processed url reactions] |}
        end
  end.

(** The [while] loop; [None] only when the fuel runs out. *)
Fixpoint while_loop `{world : Collaborators} (self : KMTScraper) (max_pages : Z)
  (fuel : nat) (st : loop_state) : option loop_state :=
  if loop_cond max_pages st then
    match fuel with
    | O => None
    | S fuel' =>
        match loop_body self st with
        | Continue st' => while_loop self max_pages fuel' st'
        | Break st' => Some st'
        end
    end
  else Some st.

Definition initial_state (self : KMTScraper) : loop_state :=
  {| current_url := Some (_build_url self 0);
     seen_urls := ∅;
     pages_scraped := 0;
     collected := collected_reactions self;
     events := [] |}.

(** [scrape(max_pages)]: the state the loop ends in.  The page budget
    bounds the number of passes, so it serves as fuel. *)
Definition scrape_run `{world : Collaborators} (self : KMTScraper) (max_pages : Z)
  : option loop_state :=
  while_loop self max_pages (Z.to_nat max_pages) (initial_state self).

(** The scraper after the call, holding the list [scrape] returns. *)
Definition scrape `{world : Collaborators} (self : KMTScraper) (max_pages : Z)
  : option KMTScraper :=
  match scrape_run self max_pages with
  | Some st => Some {| doi := doi self; collected_reactions := collected st |}
  | None => None
  end.

(** ** Notions used in the statements *)

(** The number of occurrences of a character. *)
Fixpoint count_char (d : ascii) (s : string) : nat :=
  match s with
  | EmptyString => O
  | String c s' => (if Ascii.eqb d c then 1 else 0) + count_char d s'
  end.

(** The string without the occurrences of a character. *)
Fixpoint remove_char (d : ascii) (s : string) : string :=
  match s with
  | EmptyString => EmptyString
  | String c s' => if Ascii.eqb d c then remove_char d s' else String c (remove_char d s')
  end.

(** The parser's result, from the three fields it keeps. *)
Definition fields (p0 p1 p2 : string) : parsed :=
  {| reactants := split_fragments p0;
     reagents := split_fragments p1;
     products := split_fragments p2 |}.


(** The raw values of the designated attribute, in document order. *)
Definition attribute_values (soup : node) : list string :=
  List.flat_map
    (fun el => match get el data_attr with Some v => [v] | None => [] end)
    (descendants soup).

Fixpoint string_forallb (f : ascii -> bool) (s : string) : bool :=
  match s with
  | EmptyString => true
  | String c s' => f c && string_forallb f s'
  end.

Definition starts_with_digit (s : string) : bool :=
  match s with
  | EmptyString => false
  | String c _ => Py.isdigit c
  end.

(** [s] ends with [suffix]. *)
Definition ends_with (s suffix : string) : bool :=
  String.eqb (string_drop (String.length s - String.length suffix) s) suffix.

(** The URL holds a segment [/start/<digits>]. *)
Definition has_start_segment (url : string) : Prop :=
  exists pre d rest,
    url = pre +:+ "/start/" +:+ String d rest /\ Py.isdigit d = true.

(** [digits] is the whole number of the first segment [/start/<digits>]
    of the URL, which [pre] precedes and [post] follows. *)
Definition leftmost_segment (url pre digits post : string) : Prop :=
  url = pre +:+ "/start/" +:+ digits +:+ post /\
  digits <> EmptyString /\
  string_forallb Py.isdigit digits = true /\
  starts_with_digit post = false /\
  forall pre' d rest,
    url = pre' +:+ "/start/" +:+ String d rest -> Py.isdigit d = true ->
    (String.length pre <= String.length pre')%nat.

(** The URLs fetched, the URLs processed and the records the processed
    pages returned, in the order of the run. *)
Definition fetched_urls (evs : list event) : list string :=
  List.flat_map
    (fun e => match e with Fetched url => [url] | Processed _ _ => [] end) evs.

Definition processed_urls (evs : list event) : list string :=
  List.flat_map
    (fun e => match e with Fetched _ => [] | Processed url _ => [url] end) evs.

Definition observed (evs : list event) : list ReactionData :=
  List.flat_map
    (fun e => match e with Fetched _ => [] | Processed _ rs => rs end) evs.

(** The first record with a given [reaction_smiles]. *)
Definition find_smiles (key : string) (l : list ReactionData)
  : option ReactionData :=
  List.find (fun r => String.eqb (reaction_smiles r) key) l.

(** The scrapers a program can hold: a fresh one, or one left by a call
    of [scrape], whatever the outside world was during that call. *)
Inductive reachable : KMTScraper -> Prop :=
| reachable_init doi : reachable (__init__ doi)
| reachable_scrape (world : Collaborators) self max_pages self' :
    reachable self ->
    @scrape world self max_pages = Some self' ->
    reachable self'.

(** The same world, where a page with an empty text is a failed request. *)
Definition fail_on_empty (world : Collaborators) : Collaborators :=
  {| parse_html := @parse_html world;
     re_findall := @re_findall world;
     fetch := fun i url =>
       match @fetch world i url with
       | Some html => if Py.truthy html then Some html else None
       | None => None
       end;
     now := @now world;
     set_iter := @set_iter world;
     set_iter_perm := @set_iter_perm world |}.

(** A small world for the examples: every page is one element whose
    attribute holds the page text, and the site serves the same reaction
    on its first two pages and fails afterwards. *)
Definition demo_world : Collaborators :=
  {| parse_html := fun html =>
       Tag "[document]" ∅ [Tag "div" {[ data_attr := html ]} []];
     re_findall := fun _ _ => [];
     fetch := fun i _ => if i <? 2 then Some "A.B>>C"%string else None;
     now := Py.str;
     set_iter := elements;
     set_iter_perm := fun X => reflexivity (elements X) |}.

(** The record [_process_page] builds from a candidate and its parse. *)
Definition record_of (smiles : string) (p : parsed) (url timestamp : string)
  : ReactionData :=
  {| reaction_smiles := smiles;
     reactant_smiles := reactants p;
     reagent_smiles := reagents p;
     product_smiles := products p;
     source_url := url;
     scraped_at := timestamp |}.

(** The states the loop passes through, from a given one. *)
Inductive loop_reaches `{world : Collaborators} (self : KMTScraper) (max_pages : Z)
  : loop_state -> loop_state -> Prop :=
| reaches_refl st : loop_reaches self max_pages st st
| reaches_step st st1 st2 :
    loop_reaches self max_pages st st1 ->
    loop_cond max_pages st1 = true ->
    loop_body self st1 = Continue st2 ->
    loop_reaches self max_pages st st2.

(** What one pass can do: stop at once on a visited URL, stop after a
    failed or empty fetch, or process the page and go on. *)
Inductive pass `{world : Collaborators} (self : KMTScraper)
  : loop_state -> outcome -> Prop :=
| pass_cycle st url :
    current_url st = Some url -> url ∈ seen_urls st ->
    pass self st (Break st)
| pass_no_page st url :
    current_url st = Some url -> url ∉ seen_urls st ->
    (_fetch_page (pages_scraped st) url = None \/
     _fetch_page (pages_scraped st) url = Some EmptyString) ->
    pass self st (Break {| current_url := Some url;
                      seen_urls := {[url]} ∪ seen_urls st;
                      pages_scraped := pages_scraped st;
                      collected := collected st;
                      events := events st ++ [Fetched url] |})
| pass_page st url html :
    current_url st = Some url -> url ∉ seen_urls st ->
    _fetch_page (pages_scraped st) url = Some html -> html <> EmptyString ->
    pass self st
      (Continue
         {| current_url := _find_next_page_url self (parse_html html) url;
            seen_urls := {[url]} ∪ seen_urls st;
            pages_scraped := pages_scraped st + 1;
            collected :=
              merge (collected st)
                (_process_page html url (now (pages_scraped st)));
            events :=
              (events st ++ [Fetched url]) ++
              [Processed url (_process_page html url (now (pages_scraped st)))] |}).

(** What the loop keeps true of its state, for a run that started with
    the records [init]. *)
Definition crawl_inv (init : list ReactionData) (st : loop_state) : Prop :=
  seen_urls st = list_to_set (fetched_urls (events st)) /\
  NoDup (fetched_urls (events st)) /\
  processed_urls (events st) `sublist_of` fetched_urls (events st) /\
  Z.of_nat (length (processed_urls (events st))) = pages_scraped st /\
  collected st = merge init (observed (events st)) /\
  List.Forall (fun r => product_smiles r <> []) (observed (events st)).

(** A site whose only page links back to itself. *)
Definition cycle_world : Collaborators :=
  {| parse_html := fun html =>
       Tag "[document]" ∅
         [Tag "div" {[ data_attr := html ]} [];
          Tag "a" {[ "href" := "/data/reaction/doi/10.1021/jacsau.4c01276/start/0"%string ]}
            [NavigableString " Next page "]];
     re_findall := fun _ _ => [];
     fetch := fun _ _ => Some "A>>B"%string;
     now := Py.str;
     set_iter := elements;
     set_iter_perm := fun X => reflexivity (elements X) |}.

(** A site that answers every request with an empty text. *)
Definition blank_world : Collaborators :=
  {| parse_html := fun html => Tag "[document]" ∅ [];
     re_findall := fun _ _ => [];
     fetch := fun _ _ => Some EmptyString;
     now := Py.str;
     set_iter := elements;
     set_iter_perm := fun X => reflexivity (elements X) |}.

(** The single page of the end-to-end scenario: one element carrying the
    attribute, one table cell, no script and no link. *)
Definition scenario_world : Collaborators :=
  {| parse_html := fun html =>
       Tag "[document]" ∅
         [Tag "div" {[ data_attr := "A.B>>C"%string ]} [];
          Tag "table" ∅
            [Tag "tr" ∅
               [Tag "th" ∅ [NavigableString "Reaction no. 1"];
                Tag "td" ∅ [NavigableString " D>>E.F "]]]];
     re_findall := fun _ _ => [];
     fetch := fun _ _ => Some "<html>"%string;
     now := Py.str;
     set_iter := elements;
     set_iter_perm := fun X => reflexivity (elements X) |}.

(** ** Notions used in the further properties *)

(** A fragment as the parser produces them: not empty, and free of the
    two separators. *)
Definition clean_fragment (f : string) : Prop :=
  f <> EmptyString /\ count_char "." f = O /\ count_char ">" f = O.

(** The reaction string written from three lists of fragments. *)
Definition format_reaction (rs gs ps : list string) : string :=
  String.concat "." rs +:+ ">" +:+ String.concat "." gs +:+ ">" +:+
  String.concat "." ps.

(** The fields of a record are the parse of its reaction string. *)
Definition consistent (r : ReactionData) : Prop :=
  _parse_smiles_string (reaction_smiles r) =
    Some {| reactants := reactant_smiles r;
            reagents := reagent_smiles r;
            products := product_smiles r |}.

(** What comes before the offset in the URLs the scraper builds. *)
Definition url_stem (self : KMTScraper) : string :=
  BASE_URL +:+ "/data/reaction/doi/" +:+ doi self.

(** What holds of every state the loop passes through, between two
    passes: each fetched page was processed, and the crawl began at
    offset 0. *)
Definition between_passes (self : KMTScraper) (max_pages : Z)
  (st : loop_state) : Prop :=
  fetched_urls (events st) = processed_urls (events st) /\
  Z.of_nat (length (processed_urls (events st))) = pages_scraped st /\
  pages_scraped st <= Z.max 0 max_pages /\
  match fetched_urls (events st) with
  | [] => current_url st = Some (_build_url self 0)
  | url :: _ => url = _build_url self 0
  end.



(** Two worlds show the same site when they serve the same pages, parse
    them alike and match the same patterns; the clock and the iteration
    order of sets may differ. *)
Definition same_site (w1 w2 : Collaborators) : Prop :=
  (forall i url, @fetch w1 i url = @fetch w2 i url) /\
  (forall html, @parse_html w1 html = @parse_html w2 html) /\
  (forall pattern html, @re_findall w1 pattern html = @re_findall w2 pattern html).

(** Two loop states that agree on the course of the crawl, the second
    having seen no reaction string that the first has not. *)
Definition same_course (st1 st2 : loop_state) : Prop :=
  current_url st1 = current_url st2 /\
  seen_urls st1 = seen_urls st2 /\
  pages_scraped st1 = pages_scraped st2 /\
  forall r2, In r2 (observed (events st2)) ->
    exists r1, In r1 (observed (events st1)) /\
               reaction_smiles r1 = reaction_smiles r2.

(** The demo site at a later time. *)
Definition later_world : Collaborators :=
  {| parse_html := @parse_html demo_world;
     re_findall := @re_findall demo_world;
     fetch := @fetch demo_world;
     now := fun i => Py.str (i + 100);
     set_iter := elements;
     set_iter_perm := fun X => reflexivity (elements X) |}.

(** The string ends with a character that [strip] removes. *)
Fixpoint ends_with_space (s : string) : bool :=
  match s with
  | EmptyString => false
  | String c rest =>
      match rest with
      | EmptyString => Py.isspace c
      | String _ _ => ends_with_space rest
      end
  end.

(** ** Output helpers *)

(** The values handed to [json.dumps]: strings, integers, lists and
    dictionaries with their keys in insertion order. *)
#[warnings="-register-all"]
Inductive json :=
| JStr (s : string)
| JInt (n : Z)
| JList (items : list json)
| JDict (entries : list (string * json)).

(** [dataclasses.asdict(r)]. *)
Definition asdict (r : ReactionData) : json :=
  JDict [ ("reaction_smiles", JStr (reaction_smiles r));
          ("reactant_smiles", JList (List.map JStr (reactant_smiles r)));
          ("reagent_smiles", JList (List.map JStr (reagent_smiles r)));
          ("product_smiles", JList (List.map JStr (product_smiles r)));
          ("source_url", JStr (source_url r));
          ("scraped_at", JStr (scraped_at r)) ]%string.

(** The dictionary [data] of [to_json]; [timestamp] is what the clock
    reads at the call. *)
Definition to_json_data (self : KMTScraper) (timestamp : string) : json :=
  JDict [ ("metadata",
           JDict [ ("doi", JStr (doi self));
                   ("total_reactions",
                    JInt (Z.of_nat (length (collected_reactions self))));
                   ("scraped_at", JStr timestamp) ]);
          ("reactions", JList (List.map asdict (collected_reactions self))) ]%string.

(** [to_json(filepath)]: the text [json.dumps] gives for the data, and the
    files afterwards.  The serializer is the library's.  The file system
    is the caller's: [write_file files path text] is what opening [path]
    for writing and writing [text] leaves of [files], or [None] when the
    system refuses, in which case the call fails with its error.  A path
    that is absent or empty opens nothing. *)
Definition to_json {fs : Type} (write_file : fs -> string -> string -> option fs)
  (dumps : json -> string) (timestamp : string)
  (self : KMTScraper) (filepath : option string) (files : fs)
  : option (string * fs) :=
  let json_data := dumps (to_json_data self timestamp) in
  match filepath with
  | Some path =>
      if Py.truthy path then
        match write_file files path json_data with
        | Some files' => Some (json_data, files')
        | None => None
        end
      else Some (json_data, files)
  | None => Some (json_data, files)
  end.

Definition get_summary (self : KMTScraper) : json :=
  JDict [ ("total_reactions", JInt (Z.of_nat (length (collected_reactions self))));
          ("doi", JStr (doi self)) ]%string.

(** ** The limit on integer conversions *)

(** The number of digits beyond which the interpreter refuses to convert
    between an integer and its numeral. *)
Definition int_max_str_digits : Z := 4300.

(** [int(digits)] is accepted. *)
Definition int_accepts (digits : string) : Prop :=
  Z.of_nat (String.length digits) <= int_max_str_digits.

(** [str(n)] is accepted. *)
Definition str_accepts (n : Z) : Prop :=
  Z.of_nat (String.length (Py.str (Z.abs n))) <= int_max_str_digits.

(** The demo site with an empty second page. *)
Definition trailing_blank_world : Collaborators :=
  {| parse_html := @parse_html demo_world;
     re_findall := @re_findall demo_world;
     fetch := fun i _ => if i <? 1 then Some "A.B>>C"%string else Some EmptyString;
     now := Py.str;
     set_iter := elements;
     set_iter_perm := fun X => reflexivity (elements X) |}.

(** A file system that keeps one content per path and refuses the paths
    that name a directory. *)
Definition flat_write (files : gmap string string) (path text : string)
  : option (gmap string string) :=
  if ends_with path "/" then None else Some (<[path := text]> files).
(** * Properties *)

(** ** Evaluation on the inputs the specification names *)

Example split_three_fields : Py.split "A.B>C>D" ">" = ["A.B"; "C"; "D"]%string.
Proof. reflexivity. Qed.

Example split_double_separator :
  Py.split "a>>>b>>" ">>" = ["a"; ">b"; ""]%string.
Proof. reflexivity. Qed.

Example strip_both_ends : Py.strip "  a b  " = "a b"%string.
Proof. reflexivity. Qed.

Example str_int_decimal :
  Py.str 30 = "30"%string /\ Py.str 0 = "0"%string /\ Py.int "0020" = 20.
Proof. repeat split; reflexivity. Qed.

Example lower_mixed_case : Py.lower "NeXt >" = "next >"%string.
Proof. reflexivity. Qed.

(** ** Appending strings *)

Lemma append_empty (t : string) : EmptyString +:+ t = t.
Proof. reflexivity. Qed.

Lemma append_String c (s t : string) : String c s +:+ t = String c (s +:+ t).
Proof. reflexivity. Qed.

(** ** Splitting on a single character *)

Lemma prefix_cons a s1 b s2 :
  String.prefix (String a s1) (String b s2) = Ascii.eqb a b && String.prefix s1 s2.
Proof.
  simpl. destruct (ascii_dec a b) as [->|Hne].
  - now rewrite Ascii.eqb_refl.
  - apply Ascii.eqb_neq in Hne. now rewrite Hne.
Qed.

Lemma prefix_empty s : String.prefix EmptyString s = true.
Proof. now destruct s. Qed.

Lemma prefix_char d c s :
  String.prefix (String d EmptyString) (String c s) = Ascii.eqb d c.
Proof. rewrite prefix_cons, prefix_empty. apply andb_true_r. Qed.

Lemma split_from_not_nil sep s k : Py.split_from sep s k <> [].
Proof.
  revert k. induction s as [|c s IH]; intros k; cbn [Py.split_from]; [easy|].
  destruct k; [|apply IH].
  destruct (String.prefix sep (String c s)); [easy|].
  destruct (Py.split_from sep s 0); easy.
Qed.

Lemma split_char_cons d c s :
  Py.split (String c s) (String d EmptyString) =
  if Ascii.eqb d c then EmptyString :: Py.split s (String d EmptyString)
  else match Py.split s (String d EmptyString) with
       | h :: t => String c h :: t
       | [] => [String c EmptyString]
       end.
Proof.
  unfold Py.split. cbn [Py.split_from]. rewrite prefix_char. reflexivity.
Qed.

Lemma length_split_char d s :
  length (Py.split s (String d EmptyString)) = S (count_char d s).
Proof.
  induction s as [|c s IH]; [reflexivity|].
  rewrite split_char_cons. cbn [count_char].
  destruct (Ascii.eqb d c); cbn [length].
  - now rewrite IH.
  - destruct (Py.split s (String d EmptyString)) eqn:E; cbn [length] in *; lia.
Qed.

(** [String.concat sep parts] is [sep.join(parts)]. *)
Lemma join_cons sep p q ps :
  String.concat sep (p :: q :: ps) = p +:+ sep +:+ String.concat sep (q :: ps).
Proof. reflexivity. Qed.

Lemma string_drop_empty k : string_drop k EmptyString = EmptyString.
Proof. now destruct k. Qed.

Lemma prefix_drop sep s :
  String.prefix sep s = true -> s = sep +:+ string_drop (String.length sep) s.
Proof.
  revert s. induction sep as [|a sep IH]; intros s Hp; [reflexivity|].
  destruct s as [|b s]; [discriminate|].
  rewrite prefix_cons in Hp. apply andb_true_iff in Hp as [Hab Hp].
  apply Ascii.eqb_eq in Hab as <-.
  cbn [String.length string_drop]. now rewrite append_String, <- IH.
Qed.

(** Splitting loses nothing: the pieces joined by the separator give the
    string back, whatever the length of the separator.  While an
    occurrence is being consumed, the pieces give what follows it. *)
Lemma join_split_from a sep s k :
  String.concat (String a sep) (Py.split_from (String a sep) s k) = string_drop k s.
Proof.
  revert k. induction s as [|c s IH]; intros k.
  - now rewrite string_drop_empty.
  - destruct k as [|k]; cbn [Py.split_from string_drop]; [|apply IH].
    destruct (String.prefix (String a sep) (String c s)) eqn:Hp.
    + pose proof (split_from_not_nil (String a sep) s
                    (Nat.pred (String.length (String a sep)))) as Hne.
      specialize (IH (Nat.pred (String.length (String a sep)))).
      destruct (Py.split_from (String a sep) s
                  (Nat.pred (String.length (String a sep)))) as [|h t]; [easy|].
      rewrite join_cons, append_empty, IH.
      apply prefix_drop in Hp. cbn [String.length string_drop Nat.pred] in *.
      now symmetry.
    + pose proof (split_from_not_nil (String a sep) s 0) as Hne.
      specialize (IH O). cbn [string_drop] in IH.
      destruct (Py.split_from (String a sep) s 0) as [|h [|q t]]; [easy| |].
      * cbn [String.concat] in *. now rewrite IH.
      * rewrite join_cons in *. now rewrite append_String, IH.
Qed.

Lemma join_split a sep s :
  String.concat (String a sep) (Py.split s (String a sep)) = s.
Proof. apply (join_split_from a sep s 0). Qed.

Lemma join_split_char d s :
  String.concat (String d EmptyString) (Py.split s (String d EmptyString)) = s.
Proof. apply join_split. Qed.

(** No piece contains the separator. *)
Lemma split_char_free d s :
  Forall (fun p => count_char d p = O) (Py.split s (String d EmptyString)).
Proof.
  induction s as [|c s IH]; [repeat constructor|].
  rewrite split_char_cons.
  destruct (Ascii.eqb d c) eqn:E.
  - constructor; [reflexivity|assumption].
  - destruct (Py.split s (String d EmptyString)) as [|h t].
    + repeat constructor. simpl. now rewrite E.
    + inversion IH; subst. constructor; [|assumption].
      simpl. now rewrite E.
Qed.

Lemma count_char_cons_zero d c s :
  count_char d (String c s) = O -> Ascii.eqb d c = false /\ count_char d s = O.
Proof. cbn [count_char]. destruct (Ascii.eqb d c); split; (reflexivity || lia). Qed.

Lemma split_char_free_piece d p :
  count_char d p = O -> Py.split p (String d EmptyString) = [p].
Proof.
  induction p as [|c p IH]; intros Hp; [reflexivity|].
  apply count_char_cons_zero in Hp as [Hc Hp].
  rewrite split_char_cons, Hc, (IH Hp). reflexivity.
Qed.

Lemma split_char_app d p rest :
  count_char d p = O ->
  Py.split (p +:+ String d rest) (String d EmptyString) =
  p :: Py.split rest (String d EmptyString).
Proof.
  induction p as [|c p IH]; intros Hp.
  - now rewrite append_empty, split_char_cons, Ascii.eqb_refl.
  - apply count_char_cons_zero in Hp as [Hc Hp].
    rewrite append_String, split_char_cons, Hc, (IH Hp). reflexivity.
Qed.

(** Joining separator-free pieces and splitting again gives the pieces. *)
Lemma split_join_char d p ps :
  Forall (fun q => count_char d q = O) (p :: ps) ->
  Py.split (String.concat (String d EmptyString) (p :: ps)) (String d EmptyString)
  = p :: ps.
Proof.
  revert p. induction ps as [|q ps IH]; intros p Hall.
  - inversion Hall; subst. now apply split_char_free_piece.
  - inversion Hall as [|? ? Hp Hrest]; subst.
    rewrite join_cons, append_String, append_empty.
    rewrite split_char_app by assumption. now rewrite IH.
Qed.

(** ** Splitting on the double separator *)

Lemma prefix_gtgt_inv c s :
  String.prefix ">>" (String c s) = true ->
  c = ">"%char /\ exists s', s = String ">" s'.
Proof.
  rewrite prefix_cons. intros [Hc Hs]%andb_true_iff.
  apply Ascii.eqb_eq in Hc as <-. split; [reflexivity|].
  destruct s as [|b s']; [discriminate|].
  rewrite prefix_cons in Hs. apply andb_true_iff in Hs as [Hb _].
  apply Ascii.eqb_eq in Hb as <-. eauto.
Qed.

(** Every occurrence found by the split on [>>] uses up two [>]. *)
Lemma length_split_gtgt s k :
  (2 * length (Py.split_from ">>" s k) <= 2 + count_char ">" (string_drop k s))%nat.
Proof.
  revert k. induction s as [|c s IH]; intros k.
  - destruct k; cbn; lia.
  - destruct k as [|k]; cbn [Py.split_from string_drop]; [|apply IH].
    destruct (String.prefix ">>" (String c s)) eqn:E.
    + apply prefix_gtgt_inv in E as [-> [s' ->]].
      specialize (IH 1%nat). cbn in IH |- *. lia.
    + specialize (IH O). cbn [string_drop] in IH.
      pose proof (split_from_not_nil ">>" s 0).
      destruct (Py.split_from ">>" s 0); [easy|].
      cbn [length count_char] in *. lia.
Qed.

(** A string with fewer than three [>]-separated parts never splits in
    two on [>>]. *)
Lemma fallback_never_two s :
  (length (Py.split s ">") < 3)%nat -> length (Py.split s ">>") <> 2%nat.
Proof.
  rewrite length_split_char. intros Hlt.
  pose proof (length_split_gtgt s 0) as H. cbn [string_drop] in H.
  unfold Py.split. lia.
Qed.

(** ** The parser *)

Lemma parse_long s p0 p1 p2 rest :
  Py.split s ">" = p0 :: p1 :: p2 :: rest ->
  _parse_smiles_string s = Some (fields p0 p1 p2).
Proof.
  intros E. unfold _parse_smiles_string.
  destruct s as [|c s]; [discriminate|].
  cbn [Py.truthy negb]. rewrite E. reflexivity.
Qed.

Lemma parse_short s :
  (length (Py.split s ">") < 3)%nat -> _parse_smiles_string s = None.
Proof.
  intros Hlt. unfold _parse_smiles_string.
  destruct (negb (Py.truthy s)); [reflexivity|].
  pose proof (fallback_never_two s Hlt) as Hne.
  apply Nat.ltb_lt in Hlt. rewrite Hlt.
  apply Nat.eqb_neq in Hne. rewrite Hne. reflexivity.
Qed.

Lemma long_split_inv (parts : list string) :
  (3 <= length parts)%nat ->
  exists p0 p1 p2 rest, parts = p0 :: p1 :: p2 :: rest.
Proof.
  destruct parts as [|p0 [|p1 [|p2 rest]]]; cbn; intros; try lia; eauto.
Qed.

Lemma parse_some_inv s p :
  _parse_smiles_string s = Some p ->
  exists p0 p1 p2 rest,
    Py.split s ">" = p0 :: p1 :: p2 :: rest /\ p = fields p0 p1 p2.
Proof.
  intros Hp.
  destruct (Nat.lt_ge_cases (length (Py.split s ">")) 3) as [Hlt|Hge].
  - rewrite (parse_short s Hlt) in Hp. discriminate.
  - destruct (long_split_inv _ Hge) as (p0 & p1 & p2 & rest & E).
    rewrite (parse_long s _ _ _ _ E) in Hp. injection Hp as <-. eauto 6.
Qed.

Lemma contains_gtgt_count s :
  Py.contains ">>" s = true -> (2 <= count_char ">" s)%nat.
Proof.
  induction s as [|c s IH]; [discriminate|].
  cbn [Py.contains]. intros [Hp|Hc]%orb_true_iff.
  - apply prefix_gtgt_inv in Hp as [-> [s' ->]]. cbn. lia.
  - specialize (IH Hc). cbn [count_char]. lia.
Qed.

(** ** Fragments *)

Lemma append_empty_r (s : string) : s +:+ EmptyString = s.
Proof. induction s as [|c s IH]; [reflexivity|]. now rewrite append_String, IH. Qed.

Lemma concat_empty_cons h (t : list string) :
  String.concat EmptyString (h :: t) = h +:+ String.concat EmptyString t.
Proof.
  destruct t as [|h' t]; [cbn [String.concat]; now rewrite append_empty_r|].
  now rewrite join_cons, append_empty.
Qed.

Lemma concat_truthy (l : list string) :
  String.concat EmptyString (List.filter Py.truthy l) = String.concat EmptyString l.
Proof.
  induction l as [|h t IH]; [reflexivity|].
  rewrite concat_empty_cons.
  destruct h as [|c h]; cbn [List.filter Py.truthy].
  - now rewrite append_empty.
  - now rewrite concat_empty_cons, IH.
Qed.

(** Splitting on a character and gluing the pieces drops exactly the
    occurrences of that character. *)
Lemma concat_split_char d s :
  String.concat EmptyString (Py.split s (String d EmptyString)) = remove_char d s.
Proof.
  induction s as [|c s IH]; [reflexivity|].
  rewrite split_char_cons. cbn [remove_char].
  destruct (Ascii.eqb d c).
  - now rewrite concat_empty_cons, append_empty.
  - pose proof (split_from_not_nil (String d EmptyString) s 0) as Hne.
    fold (Py.split s (String d EmptyString)) in Hne.
    destruct (Py.split s (String d EmptyString)) as [|h t]; [easy|].
    rewrite concat_empty_cons in *. now rewrite append_String, IH.
Qed.

Lemma truthy_nonempty s : Py.truthy s = true <-> s <> EmptyString.
Proof. destruct s; cbn; split; intros; congruence. Qed.

Lemma fragments_in_pieces field :
  Forall (fun f => f <> EmptyString /\ count_char "." f = O /\
                   In f (Py.split field "."))
         (split_fragments field).
Proof.
  apply List.Forall_forall. intros f [Hin Ht]%List.filter_In.
  repeat split; [now apply truthy_nonempty| |assumption].
  pose proof (split_char_free "." field) as Hall.
  rewrite List.Forall_forall in Hall. now apply Hall.
Qed.

(** ** Claims about the parser *)

(** C1. Whenever the split on [>] gives three parts or more, the parse
    succeeds with the reactants read from part 0, the reagents from part 1
    and the products from part 2; the parts after index 2 play no role, as
    the parse of the first three parts alone is the same.  The string
    [A.B>C>D] gives reactants [A], [B], reagents [C] and products [D]. *)
Theorem parse_three_fields :
  (forall s, (3 <= length (Py.split s ">"))%nat ->
     exists p0 p1 p2 rest,
       Py.split s ">" = p0 :: p1 :: p2 :: rest /\
       _parse_smiles_string s =
         Some {| reactants := split_fragments p0;
                 reagents := split_fragments p1;
                 products := split_fragments p2 |} /\
       _parse_smiles_string (String.concat ">" [p0; p1; p2]) =
         _parse_smiles_string s) /\
  _parse_smiles_string "A.B>C>D" =
    Some {| reactants := ["A"; "B"]%string; reagents := ["C"]%string;
            products := ["D"]%string |}.
Proof.
  split; [|reflexivity].
  intros s Hlen.
  destruct (long_split_inv _ Hlen) as (p0 & p1 & p2 & rest & E).
  exists p0, p1, p2, rest. split; [assumption|].
  rewrite (parse_long s _ _ _ _ E). split; [reflexivity|].
  apply (parse_long _ p0 p1 p2 []).
  apply split_join_char.
  pose proof (split_char_free ">" s) as Hfree. rewrite E in Hfree.
  inversion Hfree as [|? ? H0 Hfree1]; subst.
  inversion Hfree1 as [|? ? H1 Hfree2]; subst.
  inversion Hfree2 as [|? ? H2 _]; subst.
  repeat constructor; assumption.
Qed.

Lemma parse_three_fields_witness :
  (3 <= length (Py.split "A.B>C>D>E" ">"))%nat /\
  exists p0 p1 p2 rest,
    Py.split "A.B>C>D>E" ">" = p0 :: p1 :: p2 :: rest /\
    _parse_smiles_string "A.B>C>D>E" =
      Some {| reactants := split_fragments p0;
              reagents := split_fragments p1;
              products := split_fragments p2 |} /\
    _parse_smiles_string (String.concat ">" [p0; p1; p2]) =
      _parse_smiles_string "A.B>C>D>E".
Proof.
  split; [vm_compute; lia|].
  apply (proj1 parse_three_fields "A.B>C>D>E"). vm_compute. lia.
Defined.

(** C4. When the split on [>] gives fewer than three parts the parser
    falls back on the split on [>>]: exactly two parts give the first as
    reactants, no reagents and the second as products, anything else gives
    no result.  [A>>D] parses to reactants [A], no reagents, products [D];
    a string without separator and the empty string give no result. *)
Theorem parse_fallback :
  (forall s, (length (Py.split s ">") < 3)%nat ->
     _parse_smiles_string s =
       if (length (Py.split s ">>") =? 2)%nat
       then Some {| reactants := split_fragments (item (Py.split s ">>") 0);
                    reagents := [];
                    products := split_fragments (item (Py.split s ">>") 1) |}
       else None) /\
  _parse_smiles_string "A>>D" =
    Some {| reactants := ["A"]%string; reagents := [];
            products := ["D"]%string |} /\
  _parse_smiles_string "no-separator-here" = None /\
  _parse_smiles_string "" = None.
Proof.
  split; [|repeat split; reflexivity].
  intros s Hlt. unfold _parse_smiles_string.
  destruct s as [|c s]; [reflexivity|].
  cbn [Py.truthy negb].
  apply Nat.ltb_lt in Hlt. rewrite Hlt.
  destruct (length (Py.split (String c s) ">>") =? 2)%nat; reflexivity.
Qed.

Lemma parse_fallback_witness :
  (length (Py.split "no-separator-here" ">") < 3)%nat /\
  _parse_smiles_string "no-separator-here" = None.
Proof.
  split; [vm_compute; lia|].
  rewrite (proj1 parse_fallback "no-separator-here") by (vm_compute; lia).
  reflexivity.
Defined.

(** C5. Each field is cut at the dots into its non-empty pieces: the
    pieces of the split joined by dots give the field back, none of them
    contains a dot, the fragments are the non-empty ones in order, and
    together they hold every character of the field but the dots.  The
    three lists of a successful parse are the fragments of the first three
    parts.  [A.B..C] gives [A], [B], [C]; the empty field and the single
    dot give no fragment. *)
Theorem fragment_splitting :
  (forall field,
     String.concat "." (Py.split field ".") = field /\
     Forall (fun p => count_char "." p = O) (Py.split field ".") /\
     split_fragments field =
       List.filter (fun p => negb (String.eqb p EmptyString)) (Py.split field ".") /\
     Forall (fun f => f <> EmptyString /\ count_char "." f = O /\
                      In f (Py.split field "."))
            (split_fragments field) /\
     String.concat EmptyString (split_fragments field) = remove_char "." field) /\
  (forall s p, _parse_smiles_string s = Some p ->
     exists p0 p1 p2 rest,
       Py.split s ">" = p0 :: p1 :: p2 :: rest /\
       reactants p = split_fragments p0 /\
       reagents p = split_fragments p1 /\
       products p = split_fragments p2) /\
  split_fragments "A.B..C" = ["A"; "B"; "C"]%string /\
  split_fragments "" = [] /\
  split_fragments "." = [].
Proof.
  split; [|split; [|repeat split; reflexivity]].
  - intros field. repeat split.
    + apply join_split_char.
    + apply split_char_free.
    + unfold split_fragments. apply List.filter_ext. now intros [|c p].
    + apply fragments_in_pieces.
    + unfold split_fragments. rewrite concat_truthy. apply concat_split_char.
  - intros s p Hp.
    destruct (parse_some_inv s p Hp) as (p0 & p1 & p2 & rest & E & ->).
    exists p0, p1, p2, rest. repeat split. assumption.
Qed.

Lemma fragment_splitting_witness :
  exists p0 p1 p2 rest,
    Py.split "A.B>>C" ">" = p0 :: p1 :: p2 :: rest /\
    [ "A"; "B" ]%string = split_fragments p0 /\
    [] = split_fragments p1 /\
    [ "C" ]%string = split_fragments p2.
Proof.
  apply (proj1 (proj2 fragment_splitting) "A.B>>C"
           {| reactants := ["A"; "B"]%string; reagents := [];
              products := ["C"]%string |}).
  reflexivity.
Defined.

(** C9. The parse succeeds exactly when the split on [>] has at least
    three parts, that is when the string holds at least two [>].  The
    fallback on [>>] never succeeds: a string that contains [>>], or that
    splits on [>>] in two parts or more, already splits on [>] in three
    parts or more, so with fewer than three parts the split on [>>] never
    has exactly two and the parse gives no result. *)
Theorem parse_succeeds_iff :
  (forall s, is_Some (_parse_smiles_string s) <->
             (3 <= length (Py.split s ">"))%nat) /\
  (forall s, (3 <= length (Py.split s ">"))%nat <->
             (2 <= count_char ">" s)%nat) /\
  (forall s, Py.contains ">>" s = true ->
             (3 <= length (Py.split s ">"))%nat) /\
  (forall s, (2 <= length (Py.split s ">>"))%nat ->
             (3 <= length (Py.split s ">"))%nat) /\
  (forall s, (length (Py.split s ">") < 3)%nat ->
             length (Py.split s ">>") <> 2%nat /\
             _parse_smiles_string s = None).
Proof.
  repeat split.
  - intros [p Hp].
    destruct (parse_some_inv s p Hp) as (p0 & p1 & p2 & rest & E & _).
    rewrite E. cbn. lia.
  - intros Hlen.
    destruct (long_split_inv _ Hlen) as (p0 & p1 & p2 & rest & E).
    rewrite (parse_long s _ _ _ _ E). eauto.
  - rewrite length_split_char. lia.
  - rewrite length_split_char. lia.
  - intros s Hc. rewrite length_split_char.
    apply contains_gtgt_count in Hc. lia.
  - intros s H2. rewrite length_split_char.
    pose proof (length_split_gtgt s 0) as H. cbn [string_drop] in H.
    unfold Py.split in H2. lia.
  - now apply fallback_never_two.
  - now apply parse_short.
Qed.

Lemma parse_succeeds_iff_witness :
  (length (Py.split "A>B" ">") < 3)%nat /\
  length (Py.split "A>B" ">>") <> 2%nat /\
  _parse_smiles_string "A>B" = None.
Proof.
  split; [vm_compute; lia|].
  apply (proj2 (proj2 (proj2 (proj2 parse_succeeds_iff))) "A>B").
  vm_compute. lia.
Defined.

(** ** The attribute scan *)

Lemma find_all_with_values key soup :
  List.flat_map
    (fun el => match get el key with Some v => [v] | None => [] end)
    (find_all_with key soup) =
  List.flat_map
    (fun el => match get el key with Some v => [v] | None => [] end)
    (descendants soup).
Proof.
  unfold find_all_with.
  induction (descendants soup) as [|el l IH]; [reflexivity|].
  cbn [List.filter List.flat_map]. unfold has_attr at 1.
  destruct el as [name attrs contents|text]; cbn [is_tag get andb].
  - destruct (attrs !! key) eqn:E.
    + cbn [List.flat_map get]. rewrite E, IH. reflexivity.
    + rewrite IH. reflexivity.
  - rewrite IH. reflexivity.
Qed.

Lemma extract_attributes_values soup :
  _extract_from_data_attributes soup =
  List.map Py.strip (List.filter Py.truthy (attribute_values soup)).
Proof.
  unfold _extract_from_data_attributes, attribute_values.
  rewrite <- (find_all_with_values data_attr soup).
  induction (find_all_with data_attr soup) as [|el l IH]; [reflexivity|].
  cbn [List.flat_map]. rewrite IH.
  destruct (get el data_attr) as [v|]; [|reflexivity].
  cbn [app List.filter]. destruct (Py.truthy v); reflexivity.
Qed.

(** C8, as the scraper does it.  An element carrying the attribute
    contributes the trimmed value exactly when the raw value is not empty:
    the candidates are the trimmed non-empty raw values, in document order,
    one per element.  A value made of blanks only passes the test and
    contributes the empty string. *)
Theorem attribute_scan_raw_guard soup :
  _extract_from_data_attributes soup =
    List.map Py.strip (List.filter Py.truthy (attribute_values soup)) /\
  (forall x, In x (_extract_from_data_attributes soup) <->
     exists el v, In el (descendants soup) /\ get el data_attr = Some v /\
                  v <> EmptyString /\ x = Py.strip v).
Proof.
  split; [apply extract_attributes_values|].
  intros x. rewrite extract_attributes_values, List.in_map_iff. split.
  - intros (v & <- & [Hin Ht]%List.filter_In).
    unfold attribute_values in Hin. apply List.in_flat_map in Hin as (el & Hel & Hv).
    destruct (get el data_attr) as [w|] eqn:E; [|destruct Hv].
    destruct Hv as [->|[]]. exists el, v. repeat split; try assumption.
    now apply truthy_nonempty.
  - intros (el & v & Hel & Hget & Hne & ->). exists v. split; [reflexivity|].
    apply List.filter_In. split; [|now apply truthy_nonempty].
    unfold attribute_values. apply List.in_flat_map. exists el.
    split; [assumption|]. rewrite Hget. now left.
Qed.

(** C8, as stated, fails on a value made of blanks: its trimmed value is
    empty, yet the element contributes it. *)
Lemma attribute_scan_blank_value :
  get (Tag "div" {[ data_attr := " "%string ]} []) data_attr = Some " "%string /\
  Py.strip " " = EmptyString /\
  _extract_from_data_attributes
    (Tag "[document]" ∅ [Tag "div" {[ data_attr := " "%string ]} []])
  = [EmptyString] /\
  ~ (forall soup x, In x (_extract_from_data_attributes soup) -> x <> EmptyString).
Proof.
  assert (E : _extract_from_data_attributes
    (Tag "[document]" ∅ [Tag "div" {[ data_attr := " "%string ]} []])
    = [EmptyString]) by (vm_compute; reflexivity).
  split; [vm_compute; reflexivity|].
  split; [vm_compute; reflexivity|].
  split; [exact E|].
  intros H.
  refine (H (Tag "[document]" ∅ [Tag "div" {[ data_attr := " "%string ]} []])
            EmptyString _ eq_refl).
  rewrite E. now left.
Qed.

(** ** The search for the offset segment *)

Lemma prefix_app p x : String.prefix p (p +:+ x) = true.
Proof.
  induction p as [|a p IH]; [apply prefix_empty|].
  now rewrite append_String, prefix_cons, Ascii.eqb_refl.
Qed.

Lemma string_drop_app p x : string_drop (String.length p) (p +:+ x) = x.
Proof. induction p as [|a p IH]; [reflexivity|exact IH]. Qed.

Lemma take_digits_spec t :
  exists post,
    t = take_digits t +:+ post /\
    string_forallb Py.isdigit (take_digits t) = true /\
    starts_with_digit post = false.
Proof.
  induction t as [|c t (post & E & Hd & Hp)].
  - exists EmptyString. repeat split.
  - cbn [take_digits]. destruct (Py.isdigit c) eqn:Hc.
    + exists post. rewrite append_String, <- E.
      cbn [string_forallb]. rewrite Hc, Hd. repeat split. assumption.
    + exists (String c t). repeat split. exact Hc.
Qed.

Lemma start_match_at_sound s digits :
  start_match_at s = Some digits ->
  exists post,
    s = "/start/" +:+ digits +:+ post /\
    digits <> EmptyString /\
    string_forallb Py.isdigit digits = true /\
    starts_with_digit post = false.
Proof.
  unfold start_match_at.
  destruct (String.prefix "/start/" s) eqn:Hp; [|discriminate].
  apply prefix_drop in Hp. cbn [String.length] in Hp.
  destruct (take_digits_spec (string_drop 7 s)) as (post & E & Hd & Hpost).
  destruct (Py.truthy (take_digits (string_drop 7 s))) eqn:Ht; [|discriminate].
  intros Heq.
  replace digits with (take_digits (string_drop 7 s)) by congruence.
  exists post. split; [now rewrite <- E|].
  split; [now apply truthy_nonempty|]. now split.
Qed.

Lemma start_match_at_complete d rest :
  Py.isdigit d = true ->
  start_match_at ("/start/" +:+ String d rest) = Some (String d (take_digits rest)).
Proof.
  intros Hd. unfold start_match_at. rewrite prefix_app.
  change 7%nat with (String.length "/start/"). rewrite string_drop_app.
  cbn [take_digits]. now rewrite Hd.
Qed.

Lemma append_length_pre (pre : string) c (s x : string) :
  String c s = pre +:+ x ->
  pre = EmptyString /\ x = String c s \/
  exists pre', pre = String c pre' /\ s = pre' +:+ x.
Proof.
  destruct pre as [|a pre]; [now left|].
  rewrite append_String. intros [= -> ->]. right. eauto.
Qed.

Lemma re_search_start_some s digits :
  re_search_start s = Some digits ->
  exists pre post, leftmost_segment s pre digits post.
Proof.
  induction s as [|c s IH]; cbn [re_search_start].
  - destruct (start_match_at EmptyString) eqn:E; [|discriminate].
    intros [= ->]. apply start_match_at_sound in E as (post & E & _). discriminate.
  - destruct (start_match_at (String c s)) as [ds|] eqn:E.
    + intros [= ->]. apply start_match_at_sound in E as (post & E & Hne & Hd & Hp).
      exists EmptyString, post. repeat split; try assumption.
      intros. cbn. lia.
    + intros Hs. destruct (IH Hs) as (pre & post & E' & Hne & Hd & Hp & Hleft).
      exists (String c pre), post. repeat split; try assumption.
      * now rewrite append_String, <- E'.
      * intros pre' d rest Hurl Hdig.
        apply append_length_pre in Hurl as [[-> Hx]|(p & -> & Hx)].
        -- rewrite <- Hx, (start_match_at_complete d rest Hdig) in E. discriminate.
        -- cbn [String.length]. apply le_n_S. now apply (Hleft p d rest).
Qed.

Lemma re_search_start_unfold s :
  re_search_start s =
  match start_match_at s with
  | Some digits => Some digits
  | None =>
      match s with
      | EmptyString => None
      | String _ s' => re_search_start s'
      end
  end.
Proof. destruct s; reflexivity. Qed.

Lemma re_search_start_none s :
  re_search_start s = None -> ~ has_start_segment s.
Proof.
  intros Hs (pre & d & rest & E & Hd). revert s Hs E.
  induction pre as [|a pre IH]; intros s Hs E.
  - rewrite append_empty in E. subst s.
    rewrite re_search_start_unfold, (start_match_at_complete d rest Hd) in Hs.
    discriminate.
  - rewrite append_String in E. subst s.
    rewrite re_search_start_unfold in Hs.
    destruct (start_match_at (String a (pre +:+ "/start/" +:+ String d rest)));
      [discriminate|].
    now apply (IH _ Hs).
Qed.

Lemma re_search_start_segment s :
  has_start_segment s -> exists digits, re_search_start s = Some digits.
Proof.
  intros Hseg. destruct (re_search_start s) as [digits|] eqn:E; [eauto|].
  now apply re_search_start_none in E.
Qed.

Ltac straddle_step t H :=
  let c := fresh "c" in
  let E := fresh "E" in
  destruct t as [|c t];
  [ rewrite ?append_empty; vm_compute; reflexivity
  | rewrite ?append_String; rewrite prefix_cons in H |- *;
    destruct (Ascii.eqb _ c) eqn:E;
    [ apply Ascii.eqb_eq in E; subst c; cbn [andb] in H |- *
    | reflexivity ] ].

(** A match of the pattern cannot begin inside [t] and run into a
    following [/start/]: the only overlap leaves a letter where the digit
    should be. *)
Lemma start_match_at_straddle t x :
  t <> EmptyString ->
  String.prefix "/start/" t = false ->
  start_match_at (t +:+ "/start/" +:+ x) = None.
Proof.
  intros Hne H. unfold start_match_at.
  destruct t as [|c t]; [congruence|]. clear Hne.
  rewrite ?append_String; rewrite prefix_cons in H |- *.
  destruct (Ascii.eqb _ c) eqn:E;
    [ apply Ascii.eqb_eq in E; subst c; cbn [andb] in H |- * | reflexivity ].
  do 6 straddle_step t H.
  rewrite prefix_empty in H. discriminate.
Qed.

Lemma append_assoc (a b c : string) : (a +:+ b) +:+ c = a +:+ b +:+ c.
Proof.
  induction a as [|x a IH]; [now rewrite !append_empty|].
  now rewrite !append_String, IH.
Qed.

Lemma take_digits_app_none r y :
  take_digits r = EmptyString -> starts_with_digit y = false ->
  take_digits (r +:+ y) = EmptyString.
Proof.
  destruct r as [|c r]; intros Hr Hy.
  - rewrite append_empty. destruct y as [|d y]; [reflexivity|].
    cbn [take_digits starts_with_digit] in *. now rewrite Hy.
  - rewrite append_String. cbn [take_digits] in *.
    now destruct (Py.isdigit c).
Qed.

(** What follows a failed match does not turn it into a match when it
    begins with [/start/]. *)
Lemma start_match_at_app_none t x :
  t <> EmptyString ->
  start_match_at t = None ->
  start_match_at (t +:+ "/start/" +:+ x) = None.
Proof.
  intros Hne Hnone.
  destruct (String.prefix "/start/" t) eqn:Hp;
    [|now apply start_match_at_straddle].
  unfold start_match_at in *. rewrite Hp in Hnone.
  apply prefix_drop in Hp. cbn [String.length] in Hp.
  set (r := string_drop 7 t) in *.
  assert (Hr : take_digits r = EmptyString).
  { destruct (take_digits r); [reflexivity|discriminate]. }
  rewrite Hp, append_assoc, prefix_app.
  change 7%nat with (String.length "/start/"). rewrite string_drop_app.
  now rewrite take_digits_app_none.
Qed.

(** With no segment in what precedes, the search finds the segment that
    follows. *)
Lemma re_search_start_after pre x :
  re_search_start pre = None ->
  re_search_start (pre +:+ "/start/" +:+ x) = re_search_start ("/start/" +:+ x).
Proof.
  induction pre as [|c pre IH]; intros Hnone; [reflexivity|].
  rewrite re_search_start_unfold in Hnone.
  destruct (start_match_at (String c pre)) eqn:Hm; [discriminate|].
  rewrite re_search_start_unfold, start_match_at_app_none by easy.
  rewrite append_String. now apply IH.
Qed.

Lemma length_append (a b : string) :
  String.length (a +:+ b) = (String.length a + String.length b)%nat.
Proof.
  induction a as [|x a IH]; [now rewrite append_empty|].
  rewrite append_String. cbn [String.length]. now rewrite IH.
Qed.

Lemma ends_with_app q suffix : ends_with (q +:+ suffix) suffix = true.
Proof.
  unfold ends_with. rewrite length_append.
  replace (String.length q + String.length suffix - String.length suffix)%nat
    with (String.length q) by lia.
  rewrite string_drop_app. apply String.eqb_refl.
Qed.

Lemma find_all_false {A} (f : A -> bool) (l : list A) :
  (forall a, In a l -> f a = false) -> List.find f l = None.
Proof.
  induction l as [|a l IH]; intros Hall; [reflexivity|].
  cbn [List.find]. rewrite (Hall a) by now left.
  apply IH. intros b Hb. apply Hall. now right.
Qed.

Lemma build_url_ends self start :
  ends_with (_build_url self start) ("/start/" +:+ Py.str start) = true.
Proof.
  unfold _build_url. set (suffix := "/start/" +:+ Py.str start).
  rewrite <- (append_assoc "/data/reaction/doi/"), <- (append_assoc BASE_URL).
  apply ends_with_app.
Qed.

Lemma digits_head digits :
  digits <> EmptyString -> string_forallb Py.isdigit digits = true ->
  exists d rest, digits = String d rest /\ Py.isdigit d = true.
Proof.
  destruct digits as [|d rest]; [congruence|].
  cbn [string_forallb]. intros _ [Hd _]%andb_true_iff. eauto.
Qed.

Lemma re_search_start_none_iff s :
  re_search_start s = None <-> ~ has_start_segment s.
Proof.
  split; [apply re_search_start_none|].
  intros Hno. destruct (re_search_start s) as [digits|] eqn:E; [|reflexivity].
  exfalso. apply Hno.
  apply re_search_start_some in E as (pre & post & E & Hne & Hd & _).
  destruct (digits_head digits Hne Hd) as (d & rest & -> & Hdig).
  exists pre, d, (rest +:+ post). split; [|assumption].
  now rewrite E, append_String.
Qed.

(** ** The pagination resolver *)

(** C6, as the scraper does it.  With no anchor announcing a following
    page, a current URL holding a segment [/start/<digits>] is read at the
    first such segment; when the interpreter accepts the conversions, of
    the digits to a number and of that number plus 10 to a numeral, the
    resolver gives the URL built from the scraper's base and DOI at that
    number plus 10, and that URL ends in [/start/] followed by the new
    offset.  A current URL that ends in [/start/20] with no such segment
    before that ending gives a URL ending in [/start/30].  A current URL
    without such a segment gives no next page. *)
Theorem next_page_offset self soup current_url :
  (forall a, In a (find_all_named_with "a" "href" soup) -> next_link a = false) ->
  (has_start_segment current_url ->
     exists pre digits post,
       leftmost_segment current_url pre digits post /\
       (int_accepts digits -> str_accepts (Py.int digits + 10) ->
        _find_next_page_url self soup current_url =
          Some (_build_url self (Py.int digits + 10)) /\
        ends_with (_build_url self (Py.int digits + 10))
                  ("/start/" +:+ Py.str (Py.int digits + 10)) = true)) /\
  (forall pre,
     current_url = pre +:+ "/start/20" -> ~ has_start_segment pre ->
     _find_next_page_url self soup current_url = Some (_build_url self 30) /\
     ends_with (_build_url self 30) "/start/30" = true) /\
  (~ has_start_segment current_url ->
     _find_next_page_url self soup current_url = None).
Proof.
  intros Hno. unfold _find_next_page_url.
  rewrite (find_all_false _ _ Hno). split; [|split].
  - intros Hseg. destruct (re_search_start_segment _ Hseg) as [digits E].
    destruct (re_search_start_some _ _ E) as (pre & post & Hleft).
    exists pre, digits, post. rewrite E.
    split; [assumption|]. intros _ _.
    split; [reflexivity|apply build_url_ends].
  - intros pre -> Hpre. split; [|apply (build_url_ends self 30)].
    change "/start/20"%string with ("/start/" +:+ "20")%string.
    apply re_search_start_none_iff in Hpre.
    rewrite (re_search_start_after pre "20" Hpre). reflexivity.
  - intros Hnone. apply re_search_start_none_iff in Hnone. now rewrite Hnone.
Qed.

Lemma next_page_offset_witness :
  (forall a,
     In a (find_all_named_with "a" "href"
             (Tag "[document]" ∅
                [Tag "a" {[ "href" := "/about"%string ]}
                   [NavigableString "About"]])) ->
     next_link a = false) /\
  _find_next_page_url (__init__ default_doi)
    (Tag "[document]" ∅
       [Tag "a" {[ "href" := "/about"%string ]} [NavigableString "About"]])
    (_build_url (__init__ default_doi) 20)
  = Some "https://kmt.vander-lingen.nl/data/reaction/doi/10.1021/jacsau.4c01276/start/30"%string /\
  has_start_segment (_build_url (__init__ default_doi) 20) /\
  int_accepts "20" /\ str_accepts (Py.int "20" + 10) /\
  exists pre digits post,
    leftmost_segment (_build_url (__init__ default_doi) 20) pre digits post /\
    (int_accepts digits -> str_accepts (Py.int digits + 10) ->
     _find_next_page_url (__init__ default_doi)
       (Tag "[document]" ∅
          [Tag "a" {[ "href" := "/about"%string ]} [NavigableString "About"]])
       (_build_url (__init__ default_doi) 20) =
       Some (_build_url (__init__ default_doi) (Py.int digits + 10)) /\
     ends_with (_build_url (__init__ default_doi) (Py.int digits + 10))
               ("/start/" +:+ Py.str (Py.int digits + 10)) = true).
Proof.
  assert (Hno : forall a,
     In a (find_all_named_with "a" "href"
             (Tag "[document]" ∅
                [Tag "a" {[ "href" := "/about"%string ]}
                   [NavigableString "About"]])) ->
     next_link a = false).
  { intros a Ha. vm_compute in Ha. destruct Ha as [<-|[]]. vm_compute. reflexivity. }
  assert (Hseg : has_start_segment (_build_url (__init__ default_doi) 20)).
  { exists "https://kmt.vander-lingen.nl/data/reaction/doi/10.1021/jacsau.4c01276"%string,
           "2"%char, "0"%string.
    split; reflexivity. }
  split; [exact Hno|]. split.
  - apply (proj1 (proj2 (next_page_offset (__init__ default_doi) _ _ Hno))
             "https://kmt.vander-lingen.nl/data/reaction/doi/10.1021/jacsau.4c01276");
      [vm_compute; reflexivity|].
    apply re_search_start_none_iff. vm_compute. reflexivity.
  - split; [exact Hseg|].
    split; [vm_compute; discriminate|]. split; [vm_compute; discriminate|].
    exact (proj1 (next_page_offset (__init__ default_doi) _ _ Hno) Hseg).
Defined.

(** C6, as stated, fails on a current URL that ends in [/start/20] after
    an earlier segment [/start/5]: the search takes the first segment and
    the next URL ends in [/start/15]. *)
Lemma next_page_earlier_segment :
  (forall a, In a (descendants (Tag "[document]" ∅ [])) ->
             has_name ["a"%string] a = true -> next_link a = false) /\
  ends_with "https://kmt.vander-lingen.nl/archive/start/5/doi/10.1021/jacsau.4c01276/start/20"
            "/start/20" = true /\
  _find_next_page_url (__init__ default_doi) (Tag "[document]" ∅ [])
    "https://kmt.vander-lingen.nl/archive/start/5/doi/10.1021/jacsau.4c01276/start/20"
  = Some "https://kmt.vander-lingen.nl/data/reaction/doi/10.1021/jacsau.4c01276/start/15"%string /\
  ends_with "https://kmt.vander-lingen.nl/data/reaction/doi/10.1021/jacsau.4c01276/start/15"
            "/start/30" = false.
Proof.
  split; [intros a []|]. repeat split; vm_compute; reflexivity.
Qed.

(** The end-to-end scenario of the specification: one page, two
    candidates, two records. *)
Example end_to_end_scenario :
  exists st,
    @scrape_run scenario_world (__init__ default_doi) 1 = Some st /\
    length (collected st) = 2%nat /\
    ((fun r => (reactant_smiles r, product_smiles r)) <$> collected st)
      ≡ₚ [ (["A"; "B"], ["C"]); (["D"], ["E"; "F"]) ]%string.
Proof.
  eexists. split; [vm_compute; reflexivity|].
  split; [reflexivity|]. vm_compute. reflexivity.
Qed.

Example table_scan_cell :
  _extract_from_tables (@parse_html scenario_world EmptyString) = ["D>>E.F"%string].
Proof. vm_compute. reflexivity. Qed.

Example demo_crawl :
  option_map collected (@scrape_run demo_world (__init__ default_doi) 5) =
  Some [ {| reaction_smiles := "A.B>>C";
            reactant_smiles := ["A"; "B"]%string;
            reagent_smiles := [];
            product_smiles := ["C"]%string;
            source_url := "https://kmt.vander-lingen.nl/data/reaction/doi/10.1021/jacsau.4c01276/start/0";
            scraped_at := "0" |} ].
Proof. vm_compute. reflexivity. Qed.

(** ** Merging records *)

Lemma add_reaction_cases acc r :
  (In (reaction_smiles r) (List.map reaction_smiles acc) /\ add_reaction acc r = acc) \/
  (~ In (reaction_smiles r) (List.map reaction_smiles acc) /\
   add_reaction acc r = acc ++ [r]).
Proof.
  unfold add_reaction.
  destruct (decide (reaction_smiles r ∈
                    (list_to_set (reaction_smiles <$> acc) : gset string)))
    as [Hin|Hout]; [left|right]; (split; [|reflexivity]).
  - apply elem_of_list_to_set in Hin. now apply list_elem_of_In in Hin.
  - intros Hin. apply Hout, elem_of_list_to_set. now apply list_elem_of_In.
Qed.

Lemma merge_nil acc : merge acc [] = acc.
Proof. reflexivity. Qed.

Lemma merge_cons acc r rs : merge acc (r :: rs) = merge (add_reaction acc r) rs.
Proof. reflexivity. Qed.

Lemma merge_app acc rs1 rs2 : merge acc (rs1 ++ rs2) = merge (merge acc rs1) rs2.
Proof. unfold merge. apply List.fold_left_app. Qed.

Lemma add_reaction_NoDup acc r :
  NoDup (reaction_smiles <$> acc) ->
  NoDup (reaction_smiles <$> add_reaction acc r).
Proof.
  intros Hnd. destruct (add_reaction_cases acc r) as [[_ ->]|[Hout ->]]; [assumption|].
  rewrite fmap_app. apply NoDup_app. split; [assumption|]. split.
  - intros k Hk Hr. apply list_elem_of_singleton in Hr as ->.
    apply Hout. now apply list_elem_of_In in Hk.
  - apply NoDup_singleton.
Qed.

Lemma merge_NoDup acc rs :
  NoDup (reaction_smiles <$> acc) ->
  NoDup (reaction_smiles <$> merge acc rs).
Proof.
  revert acc. induction rs as [|r rs IH]; intros acc Hnd; [assumption|].
  rewrite merge_cons. now apply IH, add_reaction_NoDup.
Qed.

Lemma find_smiles_app key l1 l2 :
  find_smiles key (l1 ++ l2) =
  match find_smiles key l1 with
  | Some r => Some r
  | None => find_smiles key l2
  end.
Proof.
  unfold find_smiles. induction l1 as [|r l1 IH]; [reflexivity|].
  cbn [app List.find]. destruct (String.eqb (reaction_smiles r) key); [reflexivity|exact IH].
Qed.

Lemma find_smiles_present key l :
  In key (List.map reaction_smiles l) ->
  exists r, find_smiles key l = Some r /\ reaction_smiles r = key.
Proof.
  unfold find_smiles. induction l as [|r l IH]; [intros []|].
  cbn [List.map List.find]. intros Hin.
  destruct (String.eqb_spec (reaction_smiles r) key) as [E|Hne]; [eauto|].
  destruct Hin as [E|Hin]; [contradiction|]. now apply IH.
Qed.

(** The record kept for a key is the first one met with that key. *)
Lemma merge_first_seen key acc rs :
  find_smiles key (merge acc rs) = find_smiles key (acc ++ rs).
Proof.
  revert acc. induction rs as [|r rs IH]; intros acc.
  - now rewrite merge_nil, List.app_nil_r.
  - rewrite merge_cons, IH.
    destruct (add_reaction_cases acc r) as [[Hin ->]|[_ ->]].
    + rewrite !find_smiles_app.
      destruct (find_smiles key acc) as [r0|] eqn:E; [reflexivity|].
      unfold find_smiles at 2. cbn [List.find].
      destruct (String.eqb_spec (reaction_smiles r) key) as [Ek|_]; [|reflexivity].
      rewrite Ek in Hin. apply find_smiles_present in Hin as (r1 & Hr1 & _).
      congruence.
    + now rewrite <- List.app_assoc.
Qed.

(** Merging only appends: what was collected stays where it was. *)
Lemma merge_extends acc rs :
  exists added, merge acc rs = acc ++ added /\ List.incl added rs.
Proof.
  revert acc. induction rs as [|r rs IH]; intros acc.
  - exists []. split; [now rewrite List.app_nil_r|easy].
  - rewrite merge_cons.
    destruct (IH (add_reaction acc r)) as (added & -> & Hincl).
    destruct (add_reaction_cases acc r) as [[_ ->]|[_ ->]].
    + exists added. split; [reflexivity|]. now apply List.incl_tl.
    + exists (r :: added). split; [now rewrite <- List.app_assoc|].
      apply List.incl_cons; [now left|now apply List.incl_tl].
Qed.

Lemma merge_Forall (P : ReactionData -> Prop) acc rs :
  List.Forall P acc -> List.Forall P rs -> List.Forall P (merge acc rs).
Proof.
  intros Hacc Hrs. destruct (merge_extends acc rs) as (added & -> & Hincl).
  apply List.Forall_app. split; [assumption|].
  rewrite List.Forall_forall in *. auto.
Qed.

(** ** Page processing *)

Section Crawl.
Context `{world : Collaborators}.

Lemma set_iter_In (X : gset string) x : In x (set_iter X) <-> x ∈ X.
Proof.
  rewrite <- list_elem_of_In, (set_iter_perm X). apply elem_of_elements.
Qed.

Lemma set_iter_NoDup (X : gset string) : NoDup (set_iter X).
Proof. rewrite (set_iter_perm X). apply NoDup_elements. Qed.

(** The records of a page are those of the candidates that parse with at
    least one product. *)
Lemma process_page_In html url timestamp r :
  In r (_process_page html url timestamp) <->
  exists smiles p,
    smiles ∈ all_smiles html /\
    _parse_smiles_string smiles = Some p /\
    products p <> [] /\
    r = record_of smiles p url timestamp.
Proof.
  unfold _process_page. rewrite List.in_flat_map. split.
  - intros (smiles & Hin & Hr). apply set_iter_In in Hin.
    destruct (_parse_smiles_string smiles) as [p|] eqn:Hp; [|destruct Hr].
    destruct (products p) as [|x l] eqn:Hprod; [destruct Hr|].
    destruct Hr as [<-|[]]. exists smiles, p.
    repeat split; try assumption; [now rewrite Hprod|].
    unfold record_of. now rewrite Hprod.
  - intros (smiles & p & Hin & Hp & Hprod & ->).
    exists smiles. split; [now apply set_iter_In|].
    rewrite Hp. destruct (products p) as [|x l] eqn:E; [contradiction|].
    left. unfold record_of. now rewrite E.
Qed.

Lemma process_page_products html url timestamp :
  List.Forall (fun r => product_smiles r <> [])
              (_process_page html url timestamp).
Proof.
  apply List.Forall_forall. intros r Hr.
  apply process_page_In in Hr as (smiles & p & _ & _ & Hprod & ->).
  exact Hprod.
Qed.

(** ** The crawl loop *)

Variable self : KMTScraper.
Variable max_pages : Z.

Lemma while_loop_unfold fuel st :
  while_loop self max_pages fuel st =
  if loop_cond max_pages st then
    match fuel with
    | O => None
    | S fuel' =>
        match loop_body self st with
        | Continue st' => while_loop self max_pages fuel' st'
        | Break st' => Some st'
        end
    end
  else Some st.
Proof. destruct fuel; reflexivity. Qed.

Lemma loop_body_pass st :
  loop_cond max_pages st = true -> pass self st (loop_body self st).
Proof.
  unfold loop_cond, loop_body.
  destruct (current_url st) as [url|] eqn:Hurl; [intros _|discriminate].
  destruct (decide (url ∈ seen_urls st)) as [Hin|Hout].
  - now apply pass_cycle with url.
  - destruct (_fetch_page (pages_scraped st) url) as [html|] eqn:Hf.
    + destruct html as [|c html]; cbn [Py.truthy negb].
      * apply pass_no_page; auto.
      * now apply pass_page.
    + apply pass_no_page; auto.
Qed.

(** A property kept by every pass holds when the loop ends. *)
Lemma while_loop_invariant (P : loop_state -> Prop) :
  (forall st out, P st -> loop_cond max_pages st = true -> pass self st out ->
                  match out with Continue st' | Break st' => P st' end) ->
  forall fuel st st',
    P st -> while_loop self max_pages fuel st = Some st' -> P st'.
Proof.
  intros Hstep. induction fuel as [|fuel IH]; intros st st' HP;
    rewrite while_loop_unfold;
    destruct (loop_cond max_pages st) eqn:Hc; try congruence.
  pose proof (Hstep st _ HP Hc (loop_body_pass st Hc)) as Hout.
  destruct (loop_body self st) as [st1|st1]; [now apply IH|congruence].
Qed.

(** The loop ends within the page budget that is left. *)
Lemma while_loop_total fuel st :
  (Z.to_nat (max_pages - pages_scraped st) <= fuel)%nat ->
  exists st', while_loop self max_pages fuel st = Some st'.
Proof.
  revert st. induction fuel as [|fuel IH]; intros st Hfuel;
    rewrite while_loop_unfold;
    destruct (loop_cond max_pages st) eqn:Hc; eauto.
  - unfold loop_cond in Hc. destruct (current_url st); [|discriminate].
    apply andb_true_iff in Hc as [_ Hlt%Z.ltb_lt]. lia.
  - pose proof (loop_body_pass st Hc) as Hpass.
    destruct Hpass; eauto.
    apply IH. cbn [pages_scraped].
    unfold loop_cond in Hc. destruct (current_url st); [|discriminate].
    apply andb_true_iff in Hc as [_ Hlt%Z.ltb_lt]. lia.
Qed.

(** More fuel does not change the result. *)
Lemma while_loop_more_fuel fuel fuel' st st' :
  (fuel <= fuel')%nat ->
  while_loop self max_pages fuel st = Some st' ->
  while_loop self max_pages fuel' st = Some st'.
Proof.
  revert fuel' st. induction fuel as [|fuel IH]; intros fuel' st Hle;
    rewrite !while_loop_unfold;
    destruct (loop_cond max_pages st); try congruence.
  destruct fuel' as [|fuel']; [lia|].
  destruct (loop_body self st); [|easy].
  apply IH. lia.
Qed.

Lemma crawl_inv_initial : crawl_inv (collected_reactions self) (initial_state self).
Proof.
  unfold crawl_inv, initial_state. cbn.
  repeat split; try constructor. 
Qed.

Lemma crawl_inv_pass init st out :
  crawl_inv init st -> pass self st out ->
  match out with Continue st' | Break st' => crawl_inv init st' end.
Proof.
  intros (Hseen & Hnd & Hsub & Hlen & Hcol & Hprod) Hpass.
  assert (Hfresh : forall url, url ∉ seen_urls st ->
            NoDup (fetched_urls (events st) ++ [url])).
  { intros url Hout. apply NoDup_app. split; [assumption|]. split.
    - intros x Hx Hu. apply list_elem_of_singleton in Hu as ->.
      apply Hout. rewrite Hseen. now apply elem_of_list_to_set.
    - apply NoDup_singleton. }
  assert (Hset : forall url,
            {[url]} ∪ seen_urls st =
            (list_to_set (fetched_urls (events st) ++ [url]) : gset string)).
  { intros url. rewrite Hseen, list_to_set_app_L. cbn [list_to_set].
    rewrite (right_id_L ∅ (∪)). apply (comm_L (∪)). }
  destruct Hpass as [st url _ _|st url _ Hout _|st url html _ Hout _ _];
    unfold crawl_inv; cbn [seen_urls events pages_scraped collected].
  - repeat split; assumption.
  - unfold fetched_urls, processed_urls, observed in *.
    rewrite !List.flat_map_app. cbn [List.flat_map app].
    rewrite !List.app_nil_r.
    repeat split; auto.
    now apply sublist_inserts_r.
  - unfold fetched_urls, processed_urls, observed in *.
    rewrite !List.flat_map_app. cbn [List.flat_map app].
    rewrite !List.app_nil_r.
    repeat split; auto.
    + now apply sublist_app.
    + rewrite List.length_app. cbn [length]. lia.
    + now rewrite merge_app, <- Hcol.
    + apply List.Forall_app. split; [assumption|apply process_page_products].
Qed.

Lemma scrape_run_inv st :
  scrape_run self max_pages = Some st -> crawl_inv (collected_reactions self) st.
Proof.
  apply while_loop_invariant; [|apply crawl_inv_initial].
  intros st0 out Hinv _ Hpass. now apply (crawl_inv_pass _ st0).
Qed.

Lemma loop_reaches_inv st :
  loop_reaches self max_pages (initial_state self) st ->
  crawl_inv (collected_reactions self) st.
Proof.
  intros Hreach. remember (initial_state self) as st0 eqn:E.
  induction Hreach as [st|st st1 st2 _ IH Hc Hb];
    [subst; apply crawl_inv_initial|].
  specialize (IH E).
  pose proof (crawl_inv_pass _ _ _ IH (loop_body_pass st1 Hc)) as Hout.
  now rewrite Hb in Hout.
Qed.

(** The run from a state the loop passes through ends where the whole
    run ends. *)
Lemma loop_reaches_result st0 st :
  loop_reaches self max_pages st0 st ->
  forall fuel r, while_loop self max_pages fuel st0 = Some r ->
  exists fuel', while_loop self max_pages fuel' st = Some r.
Proof.
  induction 1 as [st|st st1 st2 _ IH Hc Hb]; intros fuel r Hr; [eauto|].
  destruct (IH fuel r Hr) as [fuel1 H1].
  rewrite while_loop_unfold, Hc in H1.
  destruct fuel1 as [|fuel1]; [discriminate|].
  rewrite Hb in H1. eauto.
Qed.

Lemma scrape_run_total :
  exists st, scrape_run self max_pages = Some st.
Proof.
  apply while_loop_total. cbn [initial_state pages_scraped]. lia.
Qed.

Lemma loop_body_cycle st url :
  current_url st = Some url -> url ∈ seen_urls st ->
  loop_body self st = Break st.
Proof.
  intros Hurl Hin. unfold loop_body. rewrite Hurl.
  now destruct (decide (url ∈ seen_urls st)).
Qed.

Lemma loop_body_no_page st url :
  current_url st = Some url -> url ∉ seen_urls st ->
  fetch (pages_scraped st) url = None \/
  fetch (pages_scraped st) url = Some EmptyString ->
  loop_body self st =
  Break {| current_url := Some url;
           seen_urls := {[url]} ∪ seen_urls st;
           pages_scraped := pages_scraped st;
           collected := collected st;
           events := events st ++ [Fetched url] |}.
Proof.
  intros Hurl Hout Hf. unfold loop_body, _fetch_page. rewrite Hurl.
  destruct (decide (url ∈ seen_urls st)); [contradiction|].
  now destruct Hf as [-> | ->].
Qed.

Lemma pages_within_budget st :
  scrape_run self max_pages = Some st -> pages_scraped st <= Z.max 0 max_pages.
Proof.
  apply (while_loop_invariant (fun s => pages_scraped s <= Z.max 0 max_pages));
    [|cbn; lia].
  intros st0 out Hle Hc Hpass.
  unfold loop_cond in Hc. destruct (current_url st0); [|discriminate].
  apply andb_true_iff in Hc as [_ Hlt%Z.ltb_lt].
  destruct Hpass; cbn [pages_scraped]; lia.
Qed.

(** Replacing every empty page by a failed request changes no pass. *)
Lemma loop_body_fail_on_empty st :
  @loop_body (fail_on_empty world) self st = @loop_body world self st.
Proof.
  unfold loop_body, _fetch_page. cbn [fetch fail_on_empty].
  destruct (current_url st) as [url|]; [|reflexivity].
  destruct (decide (url ∈ seen_urls st)); [reflexivity|].
  destruct (fetch (pages_scraped st) url) as [[|c html]|]; reflexivity.
Qed.

Lemma while_loop_fail_on_empty fuel st :
  @while_loop (fail_on_empty world) self max_pages fuel st =
  @while_loop world self max_pages fuel st.
Proof.
  revert st. induction fuel as [|fuel IH]; intros st; [reflexivity|].
  cbn [while_loop]. rewrite loop_body_fail_on_empty.
  destruct (loop_cond max_pages st); [|reflexivity].
  destruct (loop_body self st); [apply IH|reflexivity].
Qed.

End Crawl.

Lemma scrape_inv `{world : Collaborators} self max_pages self' :
  scrape self max_pages = Some self' ->
  exists st,
    scrape_run self max_pages = Some st /\
    collected_reactions self' = collected st /\
    crawl_inv (collected_reactions self) st.
Proof.
  unfold scrape. destruct (scrape_run self max_pages) as [st|] eqn:E; [|discriminate].
  intros [= <-]. exists st.
  split; [reflexivity|]. split; [reflexivity|now apply (scrape_run_inv self max_pages)].
Qed.

(** Every scraper a program can hold keeps one record per reaction
    string, each with a product. *)
Lemma reachable_inv self :
  reachable self ->
  NoDup (reaction_smiles <$> collected_reactions self) /\
  List.Forall (fun r => product_smiles r <> []) (collected_reactions self).
Proof.
  induction 1 as [doi|world self max_pages self' _ [IHnd IHprod] Hs].
  - split; constructor.
  - apply scrape_inv in Hs as (st & _ & -> & (_ & _ & _ & _ & -> & Hprod)).
    split; [now apply merge_NoDup|now apply merge_Forall].
Qed.

(** ** Claims about the crawl *)

(** C2. A scraper a program can hold has at most one record per reaction
    string.  A crawl that starts from such a list ends, and the list it
    returns again has at most one record per reaction string, however
    often the pages showed the same string; it only extends the list it
    started from, and the record it holds for a string is the first one
    met with that string, in the list before the crawl or else among the
    records of the pages in the order they were processed. *)
Theorem crawl_dedup `{world : Collaborators} self max_pages :
  (reachable self -> NoDup (reaction_smiles <$> collected_reactions self)) /\
  (NoDup (reaction_smiles <$> collected_reactions self) ->
   exists st,
     scrape_run self max_pages = Some st /\
     scrape self max_pages =
       Some {| doi := doi self; collected_reactions := collected st |} /\
     NoDup (reaction_smiles <$> collected st) /\
     (exists added,
        collected st = collected_reactions self ++ added /\
        List.incl added (observed (events st))) /\
     forall key,
       find_smiles key (collected st) =
       find_smiles key (collected_reactions self ++ observed (events st))).
Proof.
  split; [intros Hr; now apply reachable_inv|].
  intros Hnd. destruct (scrape_run_total self max_pages) as [st Hst].
  exists st. split; [assumption|].
  split; [unfold scrape; now rewrite Hst|].
  destruct (scrape_run_inv self max_pages st Hst) as (_ & _ & _ & _ & Hcol & _).
  rewrite Hcol. split; [now apply merge_NoDup|].
  split; [apply merge_extends|]. intros key. apply merge_first_seen.
Qed.

Lemma crawl_dedup_witness :
  NoDup (reaction_smiles <$> collected_reactions (__init__ default_doi)) /\
  exists st,
    @scrape_run demo_world (__init__ default_doi) 5 = Some st /\
    length (observed (events st)) = 2%nat /\
    length (collected st) = 1%nat /\
    NoDup (reaction_smiles <$> collected st).
Proof.
  assert (Hnd : NoDup (reaction_smiles <$> collected_reactions (__init__ default_doi)))
    by constructor.
  split; [exact Hnd|].
  destruct (proj2 (@crawl_dedup demo_world (__init__ default_doi) 5) Hnd)
    as (st & Hst & _ & Hnd' & _).
  exists st. split; [exact Hst|].
  vm_compute in Hst. injection Hst as <-.
  split; [reflexivity|]. split; [reflexivity|exact Hnd'].
Defined.

(** C3. The records a page gives are exactly those of the candidates
    that parse with at least one product: a candidate that does not parse,
    or parses without product, gives no record.  So every record of a page
    has products, every scraper a program can hold has only records with
    products, and a crawl that starts from such a list ends with such a
    list. *)
Theorem products_never_empty `{world : Collaborators} self max_pages :
  (forall html url timestamp r,
     In r (_process_page html url timestamp) <->
     exists smiles p,
       smiles ∈ all_smiles html /\
       _parse_smiles_string smiles = Some p /\
       products p <> [] /\
       r = record_of smiles p url timestamp) /\
  (forall html url timestamp,
     List.Forall (fun r => product_smiles r <> [])
                 (_process_page html url timestamp)) /\
  (reachable self ->
     List.Forall (fun r => product_smiles r <> []) (collected_reactions self)) /\
  (List.Forall (fun r => product_smiles r <> []) (collected_reactions self) ->
   exists st,
     scrape_run self max_pages = Some st /\
     List.Forall (fun r => product_smiles r <> []) (collected st)).
Proof.
  split; [intros; apply process_page_In|].
  split; [intros; apply process_page_products|].
  split; [intros Hr; now apply reachable_inv|].
  intros Hinit. destruct (scrape_run_total self max_pages) as [st Hst].
  exists st. split; [assumption|].
  destruct (scrape_run_inv self max_pages st Hst) as (_ & _ & _ & _ & -> & Hprod).
  now apply merge_Forall.
Qed.

Lemma products_never_empty_witness :
  List.Forall (fun r => product_smiles r <> [])
              (collected_reactions (__init__ default_doi)) /\
  exists st,
    @scrape_run demo_world (__init__ default_doi) 5 = Some st /\
    List.map product_smiles (collected st) = [["C"%string]] /\
    List.Forall (fun r => product_smiles r <> []) (collected st).
Proof.
  assert (Hinit : List.Forall (fun r => product_smiles r <> [])
                    (collected_reactions (__init__ default_doi)))
    by constructor.
  split; [exact Hinit|].
  destruct (proj2 (proj2 (proj2
              (@products_never_empty demo_world (__init__ default_doi) 5))) Hinit)
    as (st & Hst & Hall).
  exists st. split; [exact Hst|].
  vm_compute in Hst. injection Hst as <-.
  split; [reflexivity|exact Hall].
Defined.

(** C7. A crawl ends, and by then no URL was fetched twice, no URL was
    processed twice, every processed URL had been fetched, and at most
    [max_pages] pages were processed.  When the loop comes to a state
    whose current URL was already fetched, the crawl ends in that very
    state: nothing more is fetched or processed. *)
Theorem crawl_visits_once `{world : Collaborators} self max_pages :
  (exists st,
     scrape_run self max_pages = Some st /\
     NoDup (fetched_urls (events st)) /\
     NoDup (processed_urls (events st)) /\
     (forall url, In url (processed_urls (events st)) ->
                  In url (fetched_urls (events st))) /\
     (length (processed_urls (events st)) <= Z.to_nat max_pages)%nat) /\
  (forall st url,
     loop_reaches self max_pages (initial_state self) st ->
     current_url st = Some url ->
     In url (fetched_urls (events st)) ->
     scrape_run self max_pages = Some st).
Proof.
  destruct (scrape_run_total self max_pages) as [final Hfinal]. split.
  - exists final. split; [assumption|].
    destruct (scrape_run_inv self max_pages final Hfinal)
      as (_ & Hnd & Hsub & Hlen & _ & _).
    pose proof (pages_within_budget self max_pages final Hfinal) as Hle.
    split; [assumption|]. split; [exact (sublist_NoDup _ _ Hnd Hsub)|].
    split; [|lia].
    intros url Hin. apply list_elem_of_In. apply list_elem_of_In in Hin.
    exact (sublist_subseteq _ _ Hsub url Hin).
  - intros st url Hreach Hurl Hin.
    destruct (loop_reaches_inv self max_pages st Hreach) as (Hseen & _).
    destruct (loop_reaches_result self max_pages _ _ Hreach _ _ Hfinal)
      as [fuel Hrun].
    rewrite while_loop_unfold in Hrun.
    destruct (loop_cond max_pages st); [|congruence].
    destruct fuel as [|fuel]; [discriminate|].
    rewrite (loop_body_cycle self st url Hurl) in Hrun; [congruence|].
    rewrite Hseen. apply elem_of_list_to_set. now apply list_elem_of_In.
Qed.

Lemma crawl_visits_once_witness :
  exists st,
    loop_reaches (world := cycle_world) (__init__ default_doi) 5
      (initial_state (__init__ default_doi)) st /\
    current_url st = Some (_build_url (__init__ default_doi) 0) /\
    fetched_urls (events st) = [_build_url (__init__ default_doi) 0] /\
    processed_urls (events st) = [_build_url (__init__ default_doi) 0] /\
    @scrape_run cycle_world (__init__ default_doi) 5 = Some st.
Proof.
  destruct (@loop_body cycle_world (__init__ default_doi)
              (initial_state (__init__ default_doi))) as [st|st] eqn:Hbody;
    [|vm_compute in Hbody; discriminate].
  exists st.
  assert (Hreach : loop_reaches (world := cycle_world) (__init__ default_doi) 5
                     (initial_state (__init__ default_doi)) st).
  { eapply reaches_step; [apply reaches_refl|vm_compute; reflexivity|exact Hbody]. }
  vm_compute in Hbody. injection Hbody as <-.
  split; [exact Hreach|].
  split; [vm_compute; reflexivity|].
  split; [vm_compute; reflexivity|].
  split; [vm_compute; reflexivity|].
  apply (proj2 (@crawl_visits_once cycle_world (__init__ default_doi) 5)
           _ (_build_url (__init__ default_doi) 0) Hreach).
  - vm_compute. reflexivity.
  - vm_compute. left. reflexivity.
Defined.

(** C10. A page with an empty text is treated as a failed request.  A
    world in which every empty page is a failure gives the same run and
    the same result.  On either answer the loop stops after that fetch
    with the URL marked as visited, the page not processed and the records
    collected so far untouched.  When this happens in a state the crawl
    has come to, the crawl ends there and [scrape] returns the records
    accumulated up to that state: the list it started from merged with the
    records of the pages processed so far. *)
Theorem empty_page_is_failure `{world : Collaborators} self max_pages :
  @scrape_run (fail_on_empty world) self max_pages =
    @scrape_run world self max_pages /\
  @scrape (fail_on_empty world) self max_pages = @scrape world self max_pages /\
  (forall st url fuel,
     loop_cond max_pages st = true ->
     current_url st = Some url -> url ∉ seen_urls st ->
     _fetch_page (pages_scraped st) url = None \/
     _fetch_page (pages_scraped st) url = Some EmptyString ->
     while_loop self max_pages (S fuel) st =
       Some {| current_url := Some url;
               seen_urls := {[url]} ∪ seen_urls st;
               pages_scraped := pages_scraped st;
               collected := collected st;
               events := events st ++ [Fetched url] |}) /\
  (forall st url,
     loop_reaches self max_pages (initial_state self) st ->
     loop_cond max_pages st = true ->
     current_url st = Some url -> url ∉ seen_urls st ->
     _fetch_page (pages_scraped st) url = None \/
     _fetch_page (pages_scraped st) url = Some EmptyString ->
     scrape_run self max_pages =
       Some {| current_url := Some url;
               seen_urls := {[url]} ∪ seen_urls st;
               pages_scraped := pages_scraped st;
               collected := collected st;
               events := events st ++ [Fetched url] |} /\
     scrape self max_pages =
       Some {| doi := doi self; collected_reactions := collected st |} /\
     collected st =
       merge (collected_reactions self) (observed (events st))).
Proof.
  assert (Hrun : @scrape_run (fail_on_empty world) self max_pages =
                 @scrape_run world self max_pages)
    by apply while_loop_fail_on_empty.
  split; [exact Hrun|]. split; [unfold scrape; now rewrite Hrun|].
  assert (Hstop : forall st url fuel,
     loop_cond max_pages st = true ->
     current_url st = Some url -> url ∉ seen_urls st ->
     _fetch_page (pages_scraped st) url = None \/
     _fetch_page (pages_scraped st) url = Some EmptyString ->
     while_loop self max_pages (S fuel) st =
       Some {| current_url := Some url;
               seen_urls := {[url]} ∪ seen_urls st;
               pages_scraped := pages_scraped st;
               collected := collected st;
               events := events st ++ [Fetched url] |}).
  { intros st url fuel Hc Hurl Hout Hf.
    rewrite while_loop_unfold, Hc.
    now rewrite (loop_body_no_page self st url Hurl Hout Hf). }
  split; [exact Hstop|].
  intros st url Hreach Hc Hurl Hout Hf.
  destruct (scrape_run_total self max_pages) as [final Hfinal].
  destruct (loop_reaches_result self max_pages _ _ Hreach _ _ Hfinal)
    as [fuel Hfuel].
  destruct fuel as [|fuel];
    [rewrite while_loop_unfold, Hc in Hfuel; discriminate|].
  rewrite (Hstop st url fuel Hc Hurl Hout Hf) in Hfuel.
  injection Hfuel as <-.
  split; [exact Hfinal|]. split; [unfold scrape; now rewrite Hfinal|].
  now destruct (loop_reaches_inv self max_pages st Hreach) as (_ & _ & _ & _ & Hcol & _).
Qed.

Lemma empty_page_is_failure_witness :
  @_fetch_page trailing_blank_world 1 (_build_url (__init__ default_doi) 10)
    = Some EmptyString /\
  @scrape trailing_blank_world (__init__ default_doi) 5 =
    Some {| doi := default_doi;
            collected_reactions :=
              [ {| reaction_smiles := "A.B>>C";
                   reactant_smiles := ["A"; "B"]%string;
                   reagent_smiles := [];
                   product_smiles := ["C"]%string;
                   source_url := "https://kmt.vander-lingen.nl/data/reaction/doi/10.1021/jacsau.4c01276/start/0";
                   scraped_at := "0" |} ] |}.
Proof.
  split; [reflexivity|].
  destruct (@loop_body trailing_blank_world (__init__ default_doi)
              (initial_state (__init__ default_doi))) as [st|st] eqn:Hbody;
    [|vm_compute in Hbody; discriminate].
  assert (Hreach : loop_reaches (world := trailing_blank_world)
                     (__init__ default_doi) 5
                     (initial_state (__init__ default_doi)) st).
  { eapply reaches_step; [apply reaches_refl|vm_compute; reflexivity|exact Hbody]. }
  vm_compute in Hbody. injection Hbody as <-.
  apply (proj2 (proj2 (proj2
           (@empty_page_is_failure trailing_blank_world (__init__ default_doi) 5)))
           _ (_build_url (__init__ default_doi) 10) Hreach).
  - vm_compute. reflexivity.
  - vm_compute. reflexivity.
  - intros Hin. vm_compute in Hin. discriminate Hin.
  - right. reflexivity.
Defined.

(** * Further properties of the code *)

(** ** The parser, continued *)

Lemma count_char_app d (a b : string) :
  count_char d (a +:+ b) = (count_char d a + count_char d b)%nat.
Proof.
  induction a as [|c a IH]; [now rewrite append_empty|].
  rewrite append_String. cbn [count_char]. rewrite IH. lia.
Qed.

Lemma count_char_concat_le d sep (l : list string) f :
  In f l -> (count_char d f <= count_char d (String.concat sep l))%nat.
Proof.
  induction l as [|h t IH]; [intros []|].
  intros Hin. destruct t as [|q t].
  - destruct Hin as [->|[]]. cbn [String.concat]. lia.
  - rewrite join_cons, !count_char_app.
    destruct Hin as [->|Hin]; [lia|]. specialize (IH Hin). lia.
Qed.

Lemma count_char_concat_zero d sep (l : list string) :
  count_char d sep = O -> Forall (fun f => count_char d f = O) l ->
  count_char d (String.concat sep l) = O.
Proof.
  intros Hsep. induction l as [|h t IH]; intros Hall; [reflexivity|].
  inversion Hall as [|? ? Hh Ht]; subst. destruct t as [|q t].
  - exact Hh.
  - rewrite join_cons, !count_char_app, Hh, Hsep. now rewrite IH.
Qed.

Lemma filter_truthy_id (l : list string) :
  Forall (fun f => f <> EmptyString) l -> List.filter Py.truthy l = l.
Proof.
  induction l as [|h t IH]; intros Hall; [reflexivity|].
  inversion Hall as [|? ? Hh Ht]; subst. cbn [List.filter].
  destruct h as [|c h]; [congruence|]. cbn [Py.truthy]. now rewrite IH.
Qed.

(** The fragments of a field written from clean fragments are those
    fragments. *)
Lemma split_fragments_concat (l : list string) :
  Forall clean_fragment l -> split_fragments (String.concat "." l) = l.
Proof.
  intros Hall. unfold split_fragments. destruct l as [|h t]; [reflexivity|].
  rewrite split_join_char.
  - apply filter_truthy_id. eapply Forall_impl; [exact Hall|]. now intros f [? _].
  - eapply Forall_impl; [exact Hall|]. now intros f (_ & ? & _).
Qed.

Lemma concat_clean_no_gt (l : list string) :
  Forall clean_fragment l -> count_char ">" (String.concat "." l) = O.
Proof.
  intros Hall. apply count_char_concat_zero; [reflexivity|].
  eapply Forall_impl; [exact Hall|]. now intros f (_ & _ & ?).
Qed.

Lemma split_fragments_clean field :
  count_char ">" field = O -> Forall clean_fragment (split_fragments field).
Proof.
  intros Hgt. pose proof (fragments_in_pieces field) as Hall.
  eapply Forall_impl; [exact Hall|].
  intros f (Hne & Hdot & Hin). repeat split; try assumption.
  pose proof (count_char_concat_le ">" "." _ f Hin) as Hle.
  rewrite (join_split_char "." field) in Hle. lia.
Qed.

(** X1. Writing three lists of clean fragments as a reaction string and
    parsing it gives the three lists back. *)
Theorem parse_format_roundtrip rs gs ps :
  Forall clean_fragment rs -> Forall clean_fragment gs ->
  Forall clean_fragment ps ->
  _parse_smiles_string (format_reaction rs gs ps) =
    Some {| reactants := rs; reagents := gs; products := ps |}.
Proof.
  intros Hr Hg Hp.
  rewrite (parse_long (format_reaction rs gs ps)
             (String.concat "." rs) (String.concat "." gs)
             (String.concat "." ps) []).
  - unfold fields. now rewrite !split_fragments_concat.
  - change (format_reaction rs gs ps) with
      (String.concat ">" [String.concat "." rs; String.concat "." gs;
                          String.concat "." ps]).
    apply split_join_char.
    repeat constructor; now apply concat_clean_no_gt.
Qed.

Lemma parse_format_roundtrip_witness :
  _parse_smiles_string "CCO.O=C=O>[Pd]>CC(=O)O" =
    Some {| reactants := ["CCO"; "O=C=O"]%string;
            reagents := ["[Pd]"]%string;
            products := ["CC(=O)O"]%string |}.
Proof.
  apply (parse_format_roundtrip ["CCO"; "O=C=O"]%string ["[Pd]"]%string
           ["CC(=O)O"]%string);
    repeat constructor; discriminate.
Defined.

(** X2. Every fragment of a successful parse is clean: not empty, without
    dot and without [>]. *)
Theorem parse_fragments_clean s p :
  _parse_smiles_string s = Some p ->
  Forall clean_fragment (reactants p) /\
  Forall clean_fragment (reagents p) /\
  Forall clean_fragment (products p).
Proof.
  intros Hp.
  destruct (parse_some_inv s p Hp) as (p0 & p1 & p2 & rest & E & ->).
  pose proof (split_char_free ">" s) as Hfree. rewrite E in Hfree.
  inversion Hfree as [|? ? H0 Hfree1]; subst.
  inversion Hfree1 as [|? ? H1 Hfree2]; subst.
  inversion Hfree2 as [|? ? H2 _]; subst.
  cbn [fields reactants reagents products].
  repeat split; now apply split_fragments_clean.
Qed.

Lemma parse_fragments_clean_witness :
  Forall clean_fragment ["A"; "B"]%string /\
  Forall clean_fragment ([] : list string) /\
  Forall clean_fragment ["C"]%string.
Proof.
  apply (parse_fragments_clean "A..B>>.C."
           {| reactants := ["A"; "B"]%string; reagents := [];
              products := ["C"]%string |}).
  reflexivity.
Defined.

(** ** Page processing, continued *)

Lemma concat_nonempty (l : list string) :
  Forall (fun f => f <> EmptyString) l ->
  (String.concat EmptyString l = EmptyString <-> l = []).
Proof.
  intros Hall. split; [|now intros ->].
  destruct l as [|h t]; [reflexivity|].
  inversion Hall as [|? ? Hh _]; subst.
  rewrite concat_empty_cons. destruct h as [|c h]; [congruence|].
  rewrite append_String. discriminate.
Qed.

(** A field has a fragment exactly when it holds a character other than
    the dot. *)
Lemma split_fragments_nil_iff field :
  split_fragments field = [] <-> remove_char "." field = EmptyString.
Proof.
  rewrite <- (concat_split_char "." field), <- concat_truthy.
  fold (split_fragments field). symmetry. apply concat_nonempty.
  eapply Forall_impl; [apply fragments_in_pieces|]. now intros f [? _].
Qed.

(** X3. A candidate of a page gives a record exactly when its split on
    [>] has three parts or more and the third part holds a character other
    than the dot. *)
Theorem page_accepts `{world : Collaborators} html url timestamp smiles :
  (exists r, In r (_process_page html url timestamp) /\
             reaction_smiles r = smiles) <->
  smiles ∈ all_smiles html /\
  exists p0 p1 p2 rest,
    Py.split smiles ">" = p0 :: p1 :: p2 :: rest /\
    remove_char "." p2 <> EmptyString.
Proof.
  split.
  - intros (r & Hin & <-).
    apply process_page_In in Hin as (s & p & Hs & Hp & Hprod & ->).
    cbn [record_of reaction_smiles]. split; [assumption|].
    destruct (parse_some_inv s p Hp) as (p0 & p1 & p2 & rest & E & ->).
    exists p0, p1, p2, rest. split; [assumption|].
    cbn [fields products] in Hprod. now rewrite <- split_fragments_nil_iff.
  - intros (Hs & p0 & p1 & p2 & rest & E & Hne).
    exists (record_of smiles (fields p0 p1 p2) url timestamp).
    split; [|reflexivity]. apply process_page_In.
    exists smiles, (fields p0 p1 p2). split; [assumption|].
    split; [now apply (parse_long smiles p0 p1 p2 rest)|].
    split; [|reflexivity].
    cbn [fields products]. now rewrite split_fragments_nil_iff.
Qed.

Lemma process_page_record `{world : Collaborators} html url timestamp r :
  In r (_process_page html url timestamp) ->
  reaction_smiles r ∈ all_smiles html /\
  source_url r = url /\ scraped_at r = timestamp /\ consistent r.
Proof.
  intros Hin. apply process_page_In in Hin as (s & p & Hs & Hp & _ & ->).
  unfold consistent. cbn [record_of reaction_smiles source_url scraped_at
    reactant_smiles reagent_smiles product_smiles].
  repeat split; try assumption. rewrite Hp. now destruct p.
Qed.

Lemma flat_map_keys_NoDup (f : string -> list ReactionData) (l : list string) :
  (forall x r, In r (f x) -> f x = [r] /\ reaction_smiles r = x) ->
  NoDup l -> NoDup (reaction_smiles <$> List.flat_map f l).
Proof.
  intros Hf. induction l as [|x l IH]; intros Hnd; [constructor|].
  apply NoDup_cons in Hnd as [Hx Hnd].
  cbn [List.flat_map]. rewrite fmap_app. apply NoDup_app.
  split; [|split; [|now apply IH]].
  - destruct (f x) as [|r t] eqn:E; [constructor|].
    destruct (Hf x r) as [Hone _]; [rewrite E; now left|].
    rewrite E in Hone. injection Hone as ->. apply NoDup_singleton.
  - intros key Hkey Hrest.
    apply list_elem_of_fmap in Hkey as (r & -> & Hr%list_elem_of_In).
    apply list_elem_of_fmap in Hrest as (r' & Heq & Hr'%list_elem_of_In).
    apply List.in_flat_map in Hr' as (y & Hy & Hr').
    destruct (Hf x r Hr) as [_ Hkx]. destruct (Hf y r' Hr') as [_ Hky].
    apply Hx. apply list_elem_of_In. congruence.
Qed.

(** X4. A page never gives two records for the same reaction string,
    however many of the three scans found it; each record carries a
    candidate of the page, the page's URL and timestamp, and the parse of
    its reaction string. *)
Theorem page_records_distinct `{world : Collaborators} html url timestamp :
  NoDup (reaction_smiles <$> _process_page html url timestamp) /\
  forall r, In r (_process_page html url timestamp) ->
    reaction_smiles r ∈ all_smiles html /\
    source_url r = url /\ scraped_at r = timestamp /\ consistent r.
Proof.
  split; [|intros r; apply process_page_record].
  unfold _process_page. apply flat_map_keys_NoDup; [|apply set_iter_NoDup].
  intros x r Hr.
  destruct (_parse_smiles_string x) as [p|]; [|destruct Hr].
  destruct (products p); [destruct Hr|].
  destruct Hr as [<-|[]]. split; reflexivity.
Qed.

(** ** The crawl, continued *)

Lemma scrape_run_consistent `{world : Collaborators} self max_pages st :
  Forall consistent (collected_reactions self) ->
  scrape_run self max_pages = Some st ->
  Forall consistent (collected st).
Proof.
  intros Hinit. apply (while_loop_invariant self max_pages
                         (fun s => Forall consistent (collected s)));
    [|exact Hinit].
  intros st0 out Hinv _ Hpass. destruct Hpass; cbn [collected]; try assumption.
  apply merge_Forall; [assumption|].
  apply List.Forall_forall. intros r Hr. now apply process_page_record in Hr.
Qed.

(** X5. In every scraper a program can hold, the fields of each record
    are the parse of the record's reaction string, which therefore holds
    at least two [>]. *)
Theorem records_consistent self :
  reachable self ->
  Forall (fun r => consistent r /\ (2 <= count_char ">" (reaction_smiles r))%nat)
         (collected_reactions self).
Proof.
  intros Hreach.
  assert (Hcons : Forall consistent (collected_reactions self)).
  { induction Hreach as [doi|world self max_pages self' _ IH Hs]; [constructor|].
    apply scrape_inv in Hs as (st & Hst & -> & _).
    now apply (scrape_run_consistent self max_pages). }
  eapply Forall_impl; [exact Hcons|].
  intros r Hr. split; [assumption|].
  destruct (parse_some_inv _ _ Hr) as (p0 & p1 & p2 & rest & E & _).
  pose proof (length_split_char ">" (reaction_smiles r)) as Hlen.
  rewrite E in Hlen. cbn [length] in Hlen. lia.
Qed.

Lemma records_consistent_witness :
  Forall (fun r => consistent r /\ (2 <= count_char ">" (reaction_smiles r))%nat)
    [ {| reaction_smiles := "A.B>>C";
         reactant_smiles := ["A"; "B"]%string;
         reagent_smiles := [];
         product_smiles := ["C"]%string;
         source_url := "https://kmt.vander-lingen.nl/data/reaction/doi/10.1021/jacsau.4c01276/start/0";
         scraped_at := "0" |} ].
Proof.
  apply (records_consistent
           {| doi := default_doi;
              collected_reactions :=
                [ {| reaction_smiles := "A.B>>C";
                     reactant_smiles := ["A"; "B"]%string;
                     reagent_smiles := [];
                     product_smiles := ["C"]%string;
                     source_url := "https://kmt.vander-lingen.nl/data/reaction/doi/10.1021/jacsau.4c01276/start/0";
                     scraped_at := "0" |} ] |}).
  apply (reachable_scrape demo_world (__init__ default_doi) 5);
    [apply reachable_init|].
  vm_compute. reflexivity.
Defined.

(** ** The pagination resolver, continued *)

Lemma base_url_absolute x : Py.startswith (BASE_URL +:+ x) "http" = true.
Proof. vm_compute. reflexivity. Qed.

Lemma startswith_http_truthy r : Py.startswith r "http" = true -> Py.truthy r = true.
Proof. now destruct r. Qed.

Lemma build_url_absolute self start :
  Py.startswith (_build_url self start) "http" = true.
Proof. unfold _build_url. apply base_url_absolute. Qed.

Lemma find_next_absolute self soup current_url next :
  _find_next_page_url self soup current_url = Some next ->
  Py.startswith next "http" = true.
Proof.
  unfold _find_next_page_url. intros Hnext.
  destruct (List.find next_link (find_all_named_with "a" "href" soup)) as [link|].
  - injection Hnext as <-.
    destruct (Py.startswith (default EmptyString (get link "href")) "http") eqn:E;
      [exact E|apply base_url_absolute].
  - destruct (re_search_start current_url); [|discriminate].
    injection Hnext as <-. apply build_url_absolute.
Qed.

(** X6. A next URL, when there is one, is absolute and not empty: it
    starts with [http], whether it comes from a link or from the offset. *)
Theorem next_url_absolute self soup current_url next :
  _find_next_page_url self soup current_url = Some next ->
  Py.startswith next "http" = true /\ Py.truthy next = true.
Proof.
  intros Hnext. apply find_next_absolute in Hnext.
  split; [exact Hnext|now apply startswith_http_truthy].
Qed.

Lemma next_url_absolute_witness :
  Py.startswith "https://kmt.vander-lingen.nl/page/2" "http" = true /\
  Py.truthy "https://kmt.vander-lingen.nl/page/2" = true.
Proof.
  apply (next_url_absolute (__init__ default_doi)
           (Tag "[document]" ∅
              [Tag "a" {[ "href" := "/page/2"%string ]}
                 [NavigableString " NEXT "]])
           "https://kmt.vander-lingen.nl/page/1").
  vm_compute. reflexivity.
Defined.

Lemma find_some_split {A} (f : A -> bool) (l : list A) x :
  List.find f l = Some x ->
  f x = true /\
  exists before after,
    l = before ++ x :: after /\ Forall (fun y => f y = false) before.
Proof.
  induction l as [|a l IH]; [discriminate|]. cbn [List.find].
  destruct (f a) eqn:E.
  - intros [= <-]. split; [assumption|]. exists [], l. split; [reflexivity|constructor].
  - intros Hx. destruct (IH Hx) as (Hfx & before & after & -> & Hall).
    split; [assumption|]. exists (a :: before), after.
    split; [reflexivity|now constructor].
Qed.

(** X7. When some anchor with an href announces a following page, the
    resolver follows the first such anchor of the document, whatever the
    current URL and its offset: the anchor's href is there to be read, an
    absolute href is returned as it is and any other is appended to the
    base URL. *)
Theorem next_link_wins self soup link :
  List.find next_link (find_all_named_with "a" "href" soup) = Some link ->
  exists href before after,
    get link "href" = Some href /\
    has_name ["a"%string] link = true /\
    Py.contains "next" (Py.lower (get_text_strip link)) = true /\
    find_all_named_with "a" "href" soup = before ++ link :: after /\
    Forall (fun a => next_link a = false) before /\
    forall current_url,
      _find_next_page_url self soup current_url =
        Some (if Py.startswith href "http" then href else BASE_URL +:+ href).
Proof.
  intros Hfind.
  destruct (find_some_split _ _ _ Hfind) as (Hnext & before & after & Hl & Hall).
  assert (Hin : In link (find_all_named_with "a" "href" soup))
    by (rewrite Hl; apply List.in_elt).
  apply List.filter_In in Hin as [_ [Hname Hattr]%andb_true_iff].
  unfold has_attr in Hattr.
  destruct (get link "href") as [href|] eqn:Hhref; [|discriminate].
  exists href, before, after. repeat split; try assumption.
  intros current_url. unfold _find_next_page_url. now rewrite Hfind, Hhref.
Qed.

Lemma next_link_wins_witness :
  exists href before after,
    get (Tag "a" {[ "href" := "/page/2"%string ]} [NavigableString " NEXT "])
        "href" = Some href /\
    has_name ["a"%string]
      (Tag "a" {[ "href" := "/page/2"%string ]} [NavigableString " NEXT "]) = true /\
    Py.contains "next"
      (Py.lower (get_text_strip
         (Tag "a" {[ "href" := "/page/2"%string ]} [NavigableString " NEXT "])))
      = true /\
    find_all_named_with "a" "href"
      (Tag "[document]" ∅
         [Tag "a" {[ "href" := "/about"%string ]} [NavigableString "About"];
          Tag "a" ∅ [NavigableString "next"];
          Tag "a" {[ "href" := "/page/2"%string ]} [NavigableString " NEXT "]])
      = before ++
        Tag "a" {[ "href" := "/page/2"%string ]} [NavigableString " NEXT "] :: after /\
    Forall (fun a => next_link a = false) before /\
    forall current_url,
      _find_next_page_url (__init__ default_doi)
        (Tag "[document]" ∅
           [Tag "a" {[ "href" := "/about"%string ]} [NavigableString "About"];
            Tag "a" ∅ [NavigableString "next"];
            Tag "a" {[ "href" := "/page/2"%string ]} [NavigableString " NEXT "]])
        current_url =
        Some (if Py.startswith href "http" then href else BASE_URL +:+ href).
Proof.
  apply (next_link_wins (__init__ default_doi)). vm_compute. reflexivity.
Defined.

(** ** Decimal numerals *)

Lemma int_from_pos d acc :
  Py.int_from (Z.pos acc) (NilEmpty.string_of_uint d) =
  Z.pos (Pos.of_uint_acc d acc).
Proof.
  revert acc. induction d as [|d IH|d IH|d IH|d IH|d IH|d IH|d IH|d IH|d IH|d IH];
    intros acc; cbn [NilEmpty.string_of_uint Py.int_from Pos.of_uint_acc];
    [reflexivity|..];
    rewrite <- IH; f_equal; unfold Py.digit_value;
    match goal with
    | |- context [Z.of_nat (nat_of_ascii ?c)] =>
        let v := eval vm_compute in (Z.of_nat (nat_of_ascii c)) in
        change (Z.of_nat (nat_of_ascii c)) with v
    end; lia.
Qed.

Lemma int_from_zero d :
  Py.int_from 0 (NilEmpty.string_of_uint d) = Z.of_N (Pos.of_uint d).
Proof.
  induction d as [|d IH|d IH|d IH|d IH|d IH|d IH|d IH|d IH|d IH|d IH];
    cbn [NilEmpty.string_of_uint Py.int_from Pos.of_uint];
    [reflexivity|exact IH|..];
    cbn [Z.of_N]; rewrite <- int_from_pos; reflexivity.
Qed.

Lemma digits_string_of_uint d :
  string_forallb Py.isdigit (NilEmpty.string_of_uint d) = true.
Proof.
  induction d; cbn [NilEmpty.string_of_uint string_forallb];
    [reflexivity|..]; rewrite IHd; reflexivity.
Qed.

Lemma str_pos p :
  Py.str (Z.pos p) = NilEmpty.string_of_uint (Pos.to_uint p).
Proof.
  unfold Py.str. cbn [Z.to_int NilZero.string_of_int].
  pose proof (DecimalPos.Unsigned.to_uint_nonnil p) as Hne.
  unfold NilZero.string_of_uint. now destruct (Pos.to_uint p).
Qed.

(** Reading back the numeral of a natural number gives the number. *)
Lemma int_str n : 0 <= n -> Py.int (Py.str n) = n.
Proof.
  intros Hn. destruct n as [|p|p]; [reflexivity| |lia].
  rewrite str_pos. unfold Py.int.
  now rewrite int_from_zero, DecimalPos.Unsigned.of_to.
Qed.

Lemma str_digits n :
  0 <= n ->
  Py.str n <> EmptyString /\ string_forallb Py.isdigit (Py.str n) = true.
Proof.
  intros Hn. destruct n as [|p|p]; [split; [discriminate|reflexivity]| |lia].
  rewrite str_pos. split; [|apply digits_string_of_uint].
  pose proof (DecimalPos.Unsigned.to_uint_nonnil p) as Hne.
  now destruct (Pos.to_uint p).
Qed.

Lemma take_digits_all s :
  string_forallb Py.isdigit s = true -> take_digits s = s.
Proof.
  induction s as [|c s IH]; [reflexivity|].
  cbn [string_forallb take_digits]. intros [Hc Hs]%andb_true_iff.
  now rewrite Hc, IH.
Qed.

Lemma re_search_start_numeral n :
  0 <= n -> re_search_start ("/start/" +:+ Py.str n) = Some (Py.str n).
Proof.
  intros Hn. destruct (str_digits n Hn) as [Hne Hd].
  rewrite re_search_start_unfold. unfold start_match_at.
  rewrite prefix_app. change 7%nat with (String.length "/start/").
  rewrite string_drop_app, (take_digits_all _ Hd).
  apply truthy_nonempty in Hne. now rewrite Hne.
Qed.

Lemma build_url_stem self start :
  _build_url self start = url_stem self +:+ "/start/" +:+ Py.str start.
Proof.
  unfold _build_url, url_stem.
  now rewrite (append_assoc BASE_URL), (append_assoc "/data/reaction/doi/").
Qed.



(** X8. On a URL the scraper built itself, with no link announcing a
    following page, the resolver gives the URL of the offset ten further,
    provided the part of the URL before the offset holds no segment
    [/start/<digits>] and the interpreter accepts to write both offsets as
    numerals. *)
Theorem next_page_advances self soup start :
  (forall a, In a (find_all_named_with "a" "href" soup) -> next_link a = false) ->
  ~ has_start_segment (url_stem self) ->
  0 <= start ->
  str_accepts start -> str_accepts (start + 10) ->
  int_accepts (Py.str start) /\
  _find_next_page_url self soup (_build_url self start) =
    Some (_build_url self (start + 10)).
Proof.
  intros Hno Hstem Hstart Hnow Hthen.
  split; [unfold int_accepts; unfold str_accepts in Hnow;
          now rewrite Z.abs_eq in Hnow|].
  unfold _find_next_page_url.
  rewrite (find_all_false _ _ Hno), build_url_stem.
  apply re_search_start_none_iff in Hstem.
  rewrite (re_search_start_after _ _ Hstem), (re_search_start_numeral _ Hstart).
  now rewrite (int_str _ Hstart).
Qed.

Lemma next_page_advances_witness :
  int_accepts (Py.str 90) /\
  _find_next_page_url (__init__ default_doi) (Tag "[document]" ∅ [])
    (_build_url (__init__ default_doi) 90) =
  Some (_build_url (__init__ default_doi) (90 + 10)).
Proof.
  apply (next_page_advances (__init__ default_doi) (Tag "[document]" ∅ []) 90).
  - intros a [].
  - apply re_search_start_none_iff. vm_compute. reflexivity.
  - lia.
  - vm_compute. discriminate.
  - vm_compute. discriminate.
Defined.

(** ** The crawl loop, continued *)

Section CrawlMore.
Context `{world : Collaborators}.
Variable self : KMTScraper.
Variable max_pages : Z.

Lemma loop_reaches_front st st' st1 :
  loop_cond max_pages st = true -> loop_body self st = Continue st' ->
  loop_reaches self max_pages st' st1 -> loop_reaches self max_pages st st1.
Proof.
  intros Hc Hb. induction 1 as [st'|st' sta stb _ IH Hca Hba].
  - eapply reaches_step; [apply reaches_refl|exact Hc|exact Hb].
  - eapply reaches_step; [exact (IH Hb)|exact Hca|exact Hba].
Qed.

(** The loop ends either in a state where the guard fails, or by a
    [break] out of a state it passed through. *)
Lemma while_loop_final fuel st final :
  while_loop self max_pages fuel st = Some final ->
  exists st1,
    loop_reaches self max_pages st st1 /\
    (loop_cond max_pages st1 = false /\ final = st1 \/
     loop_cond max_pages st1 = true /\ loop_body self st1 = Break final).
Proof.
  revert st. induction fuel as [|fuel IH]; intros st;
    rewrite while_loop_unfold;
    destruct (loop_cond max_pages st) eqn:Hc; try discriminate.
  - intros [= <-]. exists st. split; [apply reaches_refl|now left].
  - destruct (loop_body self st) as [st'|st'] eqn:Hb.
    + intros Hrun. destruct (IH st' Hrun) as (st1 & Hreach & Hend).
      exists st1. split; [|exact Hend]. now apply (loop_reaches_front st st').
    + intros [= <-]. exists st. split; [apply reaches_refl|now right].
  - intros [= <-]. exists st. split; [apply reaches_refl|now left].
Qed.

Lemma loop_cond_inv st :
  loop_cond max_pages st = true ->
  exists url, current_url st = Some url /\ pages_scraped st < max_pages.
Proof.
  unfold loop_cond. destruct (current_url st) as [url|]; [|discriminate].
  intros [_ Hlt%Z.ltb_lt]%andb_true_iff. eauto.
Qed.

Lemma fetched_urls_app evs1 evs2 :
  fetched_urls (evs1 ++ evs2) = fetched_urls evs1 ++ fetched_urls evs2.
Proof. apply List.flat_map_app. Qed.

Lemma processed_urls_app evs1 evs2 :
  processed_urls (evs1 ++ evs2) = processed_urls evs1 ++ processed_urls evs2.
Proof. apply List.flat_map_app. Qed.

Lemma between_passes_reaches st :
  loop_reaches self max_pages (initial_state self) st ->
  between_passes self max_pages st.
Proof.
  intros Hreach. remember (initial_state self) as st0 eqn:E.
  induction Hreach as [st|st st1 st2 _ IH Hc Hb].
  - subst st. unfold between_passes. cbn. repeat split; lia.
  - specialize (IH E). destruct IH as (Hfp & Hlen & Hle & Hhead).
    pose proof (loop_body_pass self max_pages st1 Hc) as Hpass.
    rewrite Hb in Hpass. inversion Hpass as [| |? url html Hurl Hout Hf Hne]; subst.
    destruct (loop_cond_inv st1 Hc) as (url' & Hurl' & Hlt).
    unfold between_passes. cbn [events pages_scraped current_url].
    rewrite !fetched_urls_app, !processed_urls_app. cbn.
    rewrite !List.app_nil_r, Hfp. split; [reflexivity|].
    rewrite List.length_app. cbn [length]. split; [lia|]. split; [lia|].
    rewrite Hfp in Hhead.
    destruct (processed_urls (events st1)) as [|u l]; cbn [app]; congruence.
Qed.

(** X9. A crawl makes at most [max_pages] requests, and none at all when
    [max_pages] is not positive: it then returns the scraper as it was.
    The first request is for offset 0, and every request except possibly
    the last one is followed by the processing of its page. *)
Theorem crawl_request_budget :
  exists st,
    scrape_run self max_pages = Some st /\
    (length (fetched_urls (events st)) <= Z.to_nat max_pages)%nat /\
    (fetched_urls (events st) = processed_urls (events st) \/
     exists url,
       fetched_urls (events st) = processed_urls (events st) ++ [url]) /\
    (forall url rest, fetched_urls (events st) = url :: rest ->
                      url = _build_url self 0) /\
    (max_pages <= 0 ->
     events st = [] /\ scrape self max_pages = Some self).
Proof.
  destruct (scrape_run_total self max_pages) as [final Hfinal].
  exists final. split; [exact Hfinal|].
  destruct (while_loop_final _ _ _ Hfinal) as (st1 & Hreach & Hend).
  pose proof (between_passes_reaches st1 Hreach) as (Hfp & Hlen & Hle & Hhead).
  assert (Hzero : max_pages <= 0 -> final = initial_state self).
  { intros Hmax. unfold scrape_run in Hfinal.
    replace (Z.to_nat max_pages) with O in Hfinal by lia.
    rewrite while_loop_unfold in Hfinal.
    destruct (loop_cond max_pages (initial_state self)) eqn:Hc; [discriminate|].
    congruence. }
  assert (Hself : max_pages <= 0 ->
                  events final = [] /\ scrape self max_pages = Some self).
  { intros Hmax. unfold scrape. rewrite Hfinal, (Hzero Hmax).
    split; [reflexivity|]. now destruct self. }
  destruct Hend as [[Hc ->]|[Hc Hb]].
  - split; [rewrite Hfp; lia|]. split; [now left|]. split; [|exact Hself].
    intros url rest E. now rewrite E in Hhead.
  - destruct (loop_cond_inv st1 Hc) as (url0 & Hurl0 & Hlt).
    pose proof (loop_body_pass self max_pages st1 Hc) as Hpass.
    rewrite Hb in Hpass.
    inversion Hpass as [? url Hurl Hin|? url Hurl Hout Hf|]; subst.
    + split; [rewrite Hfp; lia|]. split; [now left|]. split; [|exact Hself].
      intros url' rest E. now rewrite E in Hhead.
    + cbn [events]. rewrite fetched_urls_app, processed_urls_app. cbn.
      rewrite List.app_nil_r, Hfp.
      split; [rewrite List.length_app; cbn [length]; lia|].
      split; [right; now exists url|]. split; [|exact Hself].
      intros url' rest E. rewrite Hfp in Hhead.
      destruct (processed_urls (events st1)) as [|u l]; cbn [app] in E;
        congruence.
Qed.

End CrawlMore.

(** ** Crawling by offsets *)

Section Offsets.
Context `{world : Collaborators}.
Variable self : KMTScraper.
Variable max_pages : Z.

Hypothesis no_next_link :
  forall html a,
    In a (find_all_named_with "a" "href" (parse_html html)) ->
    next_link a = false.
Hypothesis clean_stem : ~ has_start_segment (url_stem self).






End Offsets.


(** ** Scraping again *)

Lemma merge_keys acc rs r :
  In r rs -> In (reaction_smiles r) (List.map reaction_smiles (merge acc rs)).
Proof.
  revert acc. induction rs as [|x rs IH]; intros acc; [intros []|].
  rewrite merge_cons. intros [->|Hin]; [|now apply IH].
  destruct (merge_extends (add_reaction acc r) rs) as (added & -> & _).
  rewrite List.map_app. apply List.in_or_app. left.
  destruct (add_reaction_cases acc r) as [[Hin ->]|[_ ->]]; [assumption|].
  rewrite List.map_app. apply List.in_or_app. right. now left.
Qed.

(** Records whose reaction strings are all known leave the list as it is. *)
Lemma merge_absorb acc rs :
  (forall r, In r rs -> In (reaction_smiles r) (List.map reaction_smiles acc)) ->
  merge acc rs = acc.
Proof.
  induction rs as [|x rs IH]; intros Hall; [reflexivity|].
  rewrite merge_cons.
  destruct (add_reaction_cases acc x) as [[_ ->]|[Hout _]].
  - apply IH. intros r Hr. apply Hall. now right.
  - exfalso. apply Hout, Hall. now left.
Qed.

Lemma observed_app evs1 evs2 :
  observed (evs1 ++ evs2) = observed evs1 ++ observed evs2.
Proof. apply List.flat_map_app. Qed.

(** What the pages have shown only grows along the loop. *)
Lemma while_loop_observed_grows `{world : Collaborators} self max_pages
  fuel st final :
  while_loop self max_pages fuel st = Some final ->
  List.incl (observed (events st)) (observed (events final)).
Proof.
  apply (while_loop_invariant self max_pages
           (fun s => List.incl (observed (events st)) (observed (events s))));
    [|apply List.incl_refl].
  intros st0 out Hincl _ Hpass.
  destruct Hpass; cbn [events]; rewrite ?observed_app; cbn;
    rewrite ?List.app_nil_r; try assumption.
  now apply List.incl_appl.
Qed.

Section Again.
Variables w1 w2 : Collaborators.
Hypothesis site : same_site w1 w2.
Variables self1 self2 : KMTScraper.
Hypothesis same_doi : doi self1 = doi self2.
Variables budget1 budget2 : Z.
Hypothesis smaller_budget : budget2 <= budget1.

Lemma all_smiles_same html : @all_smiles w1 html = @all_smiles w2 html.
Proof.
  destruct site as (_ & Hparse & Hre).
  unfold all_smiles, _extract_from_javascript. rewrite Hparse.
  do 2 f_equal. f_equal. induction js_patterns as [|p l IH]; [reflexivity|].
  cbn [List.flat_map]. now rewrite Hre, IH.
Qed.

Lemma process_page_same_keys html url t1 t2 r2 :
  In r2 (@_process_page w2 html url t2) ->
  exists r1, In r1 (@_process_page w1 html url t1) /\
             reaction_smiles r1 = reaction_smiles r2.
Proof.
  intros Hin. apply process_page_In in Hin as (s & p & Hs & Hp & Hprod & ->).
  exists (record_of s p url t1). split; [|reflexivity].
  apply process_page_In. exists s, p.
  rewrite all_smiles_same. repeat split; assumption.
Qed.

Lemma find_next_same_doi soup url :
  _find_next_page_url self1 soup url = _find_next_page_url self2 soup url.
Proof. unfold _find_next_page_url, _build_url. now rewrite same_doi. Qed.

Lemma loop_body_same_course st1 st2 :
  same_course st1 st2 ->
  match @loop_body w1 self1 st1, @loop_body w2 self2 st2 with
  | Continue st1', Continue st2' => same_course st1' st2'
  | Break st1', Break st2' => same_course st1' st2'
  | _, _ => False
  end.
Proof.
  intros (Hcur & Hseen & Hpages & Hobs).
  destruct site as (Hfetch & Hparse & _).
  unfold loop_body, _fetch_page. rewrite <- Hcur, <- Hseen, <- Hpages.
  destruct (current_url st1) as [url|] eqn:Hurl;
    [|unfold same_course; rewrite Hurl; auto].
  destruct (decide (url ∈ seen_urls st1));
    [unfold same_course; rewrite Hurl; auto|].
  rewrite <- Hfetch.
  destruct (fetch (pages_scraped st1) url) as [[|c html]|]; cbn [Py.truthy negb].
  - unfold same_course. cbn [current_url seen_urls pages_scraped events].
    repeat split; try congruence.
    intros r2. rewrite !observed_app. cbn. rewrite !List.app_nil_r. apply Hobs.
  - unfold same_course. cbn [current_url seen_urls pages_scraped events].
    rewrite <- Hparse, find_next_same_doi.
    repeat split; try congruence.
    intros r2. rewrite !observed_app. cbn. rewrite !List.app_nil_r.
    intros [Hin|Hin]%List.in_app_or.
    + destruct (Hobs r2 Hin) as (r1 & Hr1 & E). exists r1.
      split; [|exact E]. apply List.in_or_app. now left.
    + destruct (process_page_same_keys _ _
                  (@now w1 (pages_scraped st1)) _ _ Hin) as (r1 & Hr1 & E).
      exists r1. split; [|exact E]. apply List.in_or_app. now right.
  - unfold same_course. cbn [current_url seen_urls pages_scraped events].
    repeat split; try congruence.
    intros r2. rewrite !observed_app. cbn. rewrite !List.app_nil_r. apply Hobs.
Qed.

Lemma loop_cond_smaller st1 st2 :
  same_course st1 st2 ->
  loop_cond budget2 st2 = true -> loop_cond budget1 st1 = true.
Proof.
  intros (Hcur & _ & Hpages & _). unfold loop_cond.
  rewrite Hcur, Hpages. destruct (current_url st2); [|discriminate].
  intros [Ht Hlt%Z.ltb_lt]%andb_true_iff. rewrite Ht.
  apply Z.ltb_lt. lia.
Qed.

(** The second crawl, on the smaller budget, sees no reaction string that
    the first has not seen by its end. *)
Lemma while_loop_smaller_budget fuel2 :
  forall fuel1 st1 st2 final1 final2,
    same_course st1 st2 ->
    @while_loop w1 self1 budget1 fuel1 st1 = Some final1 ->
    @while_loop w2 self2 budget2 fuel2 st2 = Some final2 ->
    forall r2, In r2 (observed (events final2)) ->
      exists r1, In r1 (observed (events final1)) /\
                 reaction_smiles r1 = reaction_smiles r2.
Proof.
  assert (Hstay : forall fuel1 st1 st2 final1,
            same_course st1 st2 ->
            @while_loop w1 self1 budget1 fuel1 st1 = Some final1 ->
            forall r2, In r2 (observed (events st2)) ->
              exists r1, In r1 (observed (events final1)) /\
                         reaction_smiles r1 = reaction_smiles r2).
  { intros fuel1 st1 st2 final1 (_ & _ & _ & Hobs) Hrun1 r2 Hr2.
    destruct (Hobs r2 Hr2) as (r1 & Hr1 & E). exists r1. split; [|exact E].
    now apply (while_loop_observed_grows self1 budget1 fuel1 st1 final1 Hrun1). }
  induction fuel2 as [|fuel2 IH]; intros fuel1 st1 st2 final1 final2 Hsim Hrun1;
    rewrite while_loop_unfold;
    destruct (loop_cond budget2 st2) eqn:Hc2; try discriminate;
    try (intros [= <-]; now apply (Hstay fuel1 st1)).
  pose proof (loop_cond_smaller st1 st2 Hsim Hc2) as Hc1.
  rewrite while_loop_unfold, Hc1 in Hrun1.
  destruct fuel1 as [|fuel1]; [discriminate|].
  pose proof (loop_body_same_course st1 st2 Hsim) as Hbody.
  destruct (@loop_body w1 self1 st1) as [st1'|st1'],
           (@loop_body w2 self2 st2) as [st2'|st2']; try contradiction.
  - now apply (IH fuel1 st1' st2').
  - injection Hrun1 as <-. intros [= <-]. now destruct Hbody as (_ & _ & _ & Hobs).
Qed.

Lemma initial_same_course :
  same_course (initial_state self1) (initial_state self2).
Proof.
  unfold same_course, initial_state, _build_url. cbn.
  rewrite same_doi. repeat split. intros r2 [].
Qed.

End Again.

(** X11. Scraping again a site that has not changed, with a page budget
    no larger than that of the first call, adds nothing: the second call,
    even at another time and with another iteration order of the
    candidate sets, returns the scraper the first call left. *)
Theorem rescrape_adds_nothing (w1 w2 : Collaborators) self budget1 budget2 self' :
  same_site w1 w2 ->
  budget2 <= budget1 ->
  @scrape w1 self budget1 = Some self' ->
  @scrape w2 self' budget2 = Some self'.
Proof.
  intros Hsite Hbudget Hs.
  destruct (@scrape_inv w1 self budget1 self' Hs)
    as (st1 & Hst1 & Hcol1 & (_ & _ & _ & _ & Hmerge1 & _)).
  assert (Hdoi : doi self = doi self').
  { unfold scrape in Hs. rewrite Hst1 in Hs. now injection Hs as <-. }
  destruct (@scrape_run_total w2 self' budget2) as [st2 Hst2].
  pose proof (while_loop_smaller_budget w1 w2 Hsite self self' Hdoi
                budget1 budget2 Hbudget _ _ _ _ st1 st2
                (initial_same_course self self' Hdoi) Hst1 Hst2) as Hobs.
  destruct (@scrape_run_inv w2 self' budget2 st2 Hst2)
    as (_ & _ & _ & _ & Hmerge2 & _).
  unfold scrape. rewrite Hst2, Hmerge2. f_equal.
  rewrite merge_absorb; [now destruct self'|].
  intros r2 Hr2. destruct (Hobs r2 Hr2) as (r1 & Hr1 & <-).
  rewrite Hcol1, Hmerge1. now apply merge_keys.
Qed.

Lemma rescrape_adds_nothing_witness :
  @scrape later_world
    {| doi := default_doi;
       collected_reactions :=
         [ {| reaction_smiles := "A.B>>C";
              reactant_smiles := ["A"; "B"]%string;
              reagent_smiles := [];
              product_smiles := ["C"]%string;
              source_url := "https://kmt.vander-lingen.nl/data/reaction/doi/10.1021/jacsau.4c01276/start/0";
              scraped_at := "0" |} ] |} 1
  = Some
    {| doi := default_doi;
       collected_reactions :=
         [ {| reaction_smiles := "A.B>>C";
              reactant_smiles := ["A"; "B"]%string;
              reagent_smiles := [];
              product_smiles := ["C"]%string;
              source_url := "https://kmt.vander-lingen.nl/data/reaction/doi/10.1021/jacsau.4c01276/start/0";
              scraped_at := "0" |} ] |}.
Proof.
  apply (rescrape_adds_nothing demo_world later_world (__init__ default_doi) 5 1).
  - repeat split.
  - lia.
  - vm_compute. reflexivity.
Defined.

(** ** Where the records come from *)

Lemma scrape_run_sources `{world : Collaborators} self max_pages st :
  Forall (fun r => Py.startswith (source_url r) "http" = true)
         (collected_reactions self) ->
  scrape_run self max_pages = Some st ->
  Forall (fun url => Py.startswith url "http" = true)
         (fetched_urls (events st)) /\
  Forall (fun r => Py.startswith (source_url r) "http" = true) (collected st).
Proof.
  intros Hinit Hrun.
  enough (H : (forall url, current_url st = Some url ->
                 Py.startswith url "http" = true) /\
              Forall (fun url => Py.startswith url "http" = true)
                     (fetched_urls (events st)) /\
              Forall (fun r => Py.startswith (source_url r) "http" = true)
                     (collected st)) by apply H.
  revert Hrun. apply (while_loop_invariant self max_pages
    (fun s => (forall url, current_url s = Some url ->
                 Py.startswith url "http" = true) /\
              Forall (fun url => Py.startswith url "http" = true)
                     (fetched_urls (events s)) /\
              Forall (fun r => Py.startswith (source_url r) "http" = true)
                     (collected s))).
  - intros st0 out (Hcur & Hfetched & Hcol) _ Hpass.
    destruct Hpass as [st0 url _ _|st0 url Hurl _ _|st0 url html Hurl _ _ _];
      cbn [current_url events collected].
    + auto.
    + rewrite fetched_urls_app. cbn. split; [intros ? [= <-]; auto|].
      split; [|assumption]. apply Forall_app. split; [assumption|].
      repeat constructor. auto.
    + rewrite !fetched_urls_app. cbn. rewrite List.app_nil_r.
      split; [intros next Hnext; now apply find_next_absolute in Hnext|].
      split.
      * apply Forall_app. split; [assumption|]. repeat constructor. auto.
      * apply merge_Forall; [assumption|].
        apply List.Forall_forall. intros r Hr.
        apply process_page_record in Hr as (_ & -> & _). auto.
  - cbn. split; [intros ? [= <-]; apply build_url_absolute|].
    split; [constructor|assumption].
Qed.

(** X12. Every URL a crawl requests is absolute, and in every scraper a
    program can hold each record names as its source an absolute URL: both
    start with [http]. *)
Theorem sources_absolute `{world : Collaborators} self max_pages :
  reachable self ->
  Forall (fun r => Py.startswith (source_url r) "http" = true)
         (collected_reactions self) /\
  exists st,
    scrape_run self max_pages = Some st /\
    Forall (fun url => Py.startswith url "http" = true)
           (fetched_urls (events st)).
Proof.
  intros Hreach.
  assert (Hcol : Forall (fun r => Py.startswith (source_url r) "http" = true)
                        (collected_reactions self)).
  { clear world max_pages.
    induction Hreach as [doi|world self max_pages self' _ IH Hs]; [constructor|].
    apply scrape_inv in Hs as (st & Hst & -> & _).
    now apply (scrape_run_sources self max_pages st IH). }
  split; [exact Hcol|].
  destruct (scrape_run_total self max_pages) as [st Hst].
  exists st. split; [exact Hst|].
  now apply (scrape_run_sources self max_pages st Hcol).
Qed.

Lemma sources_absolute_witness :
  Forall (fun r => Py.startswith (source_url r) "http" = true)
         (collected_reactions (__init__ default_doi)) /\
  exists st,
    @scrape_run cycle_world (__init__ default_doi) 5 = Some st /\
    Forall (fun url => Py.startswith url "http" = true)
           (fetched_urls (events st)).
Proof.
  apply (@sources_absolute cycle_world (__init__ default_doi) 5).
  apply reachable_init.
Defined.

(** ** The table scan *)

Lemma rstrip_no_space s : ends_with_space (Py.rstrip s) = false.
Proof.
  induction s as [|c s IH]; [reflexivity|]. cbn [Py.rstrip].
  destruct (Py.rstrip s) as [|a r].
  - destruct (Py.isspace c) eqn:E; [reflexivity|]. cbn. exact E.
  - exact IH.
Qed.

Lemma ends_with_space_app (a b : string) :
  b <> EmptyString -> ends_with_space (a +:+ b) = ends_with_space b.
Proof.
  intros Hb. induction a as [|c a IH]; [now rewrite append_empty|].
  rewrite append_String. cbn [ends_with_space].
  destruct (a +:+ b) as [|x r] eqn:E; [|exact IH].
  destruct a; [rewrite append_empty in E; congruence|].
  rewrite append_String in E. discriminate.
Qed.

Lemma concat_no_space (l : list string) :
  Forall (fun p => p <> EmptyString /\ ends_with_space p = false) l ->
  ends_with_space (String.concat EmptyString l) = false.
Proof.
  induction l as [|h t IH]; intros Hall; [reflexivity|].
  inversion Hall as [|? ? [Hne Hh] Ht]; subst.
  rewrite concat_empty_cons.
  destruct (String.concat EmptyString t) as [|x r] eqn:E.
  - now rewrite append_empty_r.
  - rewrite ends_with_space_app by discriminate. now apply IH.
Qed.

Lemma get_text_no_space el : ends_with_space (get_text_strip el) = false.
Proof.
  unfold get_text_strip, stripped_strings. apply concat_no_space.
  apply List.Forall_forall. intros p (d & _ & Hp)%List.in_flat_map.
  destruct d as [|text]; [destruct Hp|].
  destruct (Py.truthy (Py.strip text)) eqn:Ht; [|destruct Hp].
  destruct Hp as [<-|[]]. split; [now apply truthy_nonempty|].
  apply rstrip_no_space.
Qed.

Lemma newline_isspace a : (nat_of_ascii a =? 10)%nat = true -> Py.isspace a = true.
Proof. intros E%Nat.eqb_eq. unfold Py.isspace. now rewrite E. Qed.

Lemma smiles_char_not_space c : smiles_char c = true -> Py.isspace c = false.
Proof.
  destruct c as [[] [] [] [] [] [] [] []]; vm_compute; congruence.
Qed.

(** A cell that matches and does not end with a blank holds only
    characters of the class: the final newline that [$] tolerates cannot
    occur. *)
Lemma smiles_cell_match_all text :
  smiles_cell_match text = true -> ends_with_space text = false ->
  string_forallb smiles_char text = true.
Proof.
  induction text as [|c rest IH]; [discriminate|].
  cbn [smiles_cell_match string_forallb ends_with_space].
  intros [Hc Hrest]%andb_true_iff Hend. rewrite Hc. cbn [andb].
  destruct rest as [|a [|b r]]; [reflexivity| |now apply IH].
  apply orb_true_iff in Hrest as [Hnl|Hm]; [|now apply IH].
  apply newline_isspace in Hnl. cbn in Hend. congruence.
Qed.

Lemma forallb_not_space text :
  string_forallb smiles_char text = true ->
  string_forallb (fun c => negb (Py.isspace c)) text = true.
Proof.
  induction text as [|c rest IH]; [reflexivity|].
  cbn [string_forallb]. intros [Hc Hrest]%andb_true_iff.
  now rewrite (smiles_char_not_space c Hc), IH.
Qed.

(** X13. Every candidate of the table scan is the trimmed text of a cell
    of a row of a table of the page, holds both [>] and a dot, and
    consists only of characters of the SMILES class, so it holds no
    blank. *)
Theorem table_candidates_clean soup text :
  In text (_extract_from_tables soup) ->
  string_forallb smiles_char text = true /\
  string_forallb (fun c => negb (Py.isspace c)) text = true /\
  Py.contains ">" text = true /\ Py.contains "." text = true /\
  exists table row cell,
    In table (find_all_named ["table"%string] soup) /\
    In row (find_all_named ["tr"%string] table) /\
    In cell (find_all_named ["td"; "th"]%string row) /\
    text = get_text_strip cell.
Proof.
  unfold _extract_from_tables.
  intros (table & Htable & (row & Hrow & (cell & Hcell & Htext)%List.in_flat_map)
            %List.in_flat_map)%List.in_flat_map.
  destruct (Py.contains ">" (get_text_strip cell)) eqn:Hgt; [|destruct Htext].
  destruct (Py.contains "." (get_text_strip cell)) eqn:Hdot; [|destruct Htext].
  cbn [andb] in Htext.
  destruct (smiles_cell_match (get_text_strip cell)) eqn:Hm; [|destruct Htext].
  destruct Htext as [<-|[]].
  pose proof (smiles_cell_match_all _ Hm (get_text_no_space cell)) as Hall.
  split; [exact Hall|]. split; [now apply forallb_not_space|].
  split; [exact Hgt|]. split; [exact Hdot|]. eauto 8.
Qed.

Lemma table_candidates_clean_witness :
  string_forallb smiles_char "D>>E.F" = true /\
  string_forallb (fun c => negb (Py.isspace c)) "D>>E.F" = true /\
  Py.contains ">" "D>>E.F" = true /\ Py.contains "." "D>>E.F" = true /\
  exists table row cell,
    In table (find_all_named ["table"%string] (@parse_html scenario_world EmptyString)) /\
    In row (find_all_named ["tr"%string] table) /\
    In cell (find_all_named ["td"; "th"]%string row) /\
    "D>>E.F"%string = get_text_strip cell.
Proof.
  apply (table_candidates_clean (@parse_html scenario_world EmptyString)).
  vm_compute. left. reflexivity.
Defined.

(** ** The output helpers *)

Lemma map_injective {A B} (f : A -> B) :
  (forall a b, f a = f b -> a = b) ->
  forall l1 l2, List.map f l1 = List.map f l2 -> l1 = l2.
Proof.
  intros Hf. induction l1 as [|a l1 IH]; intros [|b l2]; cbn [List.map];
    try congruence.
  intros E. injection E as E1 E2. now rewrite (Hf a b E1), (IH l2 E2).
Qed.

Lemma map_JStr_inj (l1 l2 : list string) :
  List.map JStr l1 = List.map JStr l2 -> l1 = l2.
Proof. apply map_injective. now intros a b [= ->]. Qed.

Lemma asdict_inj r1 r2 : asdict r1 = asdict r2 -> r1 = r2.
Proof.
  destruct r1, r2. unfold asdict. cbn.
  intros [= -> E1 E2 E3 -> ->].
  apply map_JStr_inj in E1, E2, E3. now subst.
Qed.

Lemma map_asdict_inj (l1 l2 : list ReactionData) :
  List.map asdict l1 = List.map asdict l2 -> l1 = l2.
Proof. apply map_injective, asdict_inj. Qed.

(** X14. The count in the summary of a scraper a program can hold is the
    number of distinct reaction strings it has collected, and a call of
    [scrape] keeps the DOI and never lowers the count. *)
Theorem summary_counts self :
  reachable self ->
  get_summary self =
    JDict [ ("total_reactions",
             JInt (Z.of_nat (size (list_to_set
                       (reaction_smiles <$> collected_reactions self)
                       : gset string))));
            ("doi", JStr (doi self)) ]%string /\
  forall (world : Collaborators) max_pages self',
    scrape self max_pages = Some self' ->
    doi self' = doi self /\
    (length (collected_reactions self) <= length (collected_reactions self'))%nat.
Proof.
  intros Hreach. split.
  - destruct (reachable_inv self Hreach) as [Hnd _].
    unfold get_summary. now rewrite (size_list_to_set _ Hnd), length_fmap.
  - intros world max_pages self' Hs.
    assert (Hdoi : doi self' = doi self).
    { unfold scrape in Hs. destruct (scrape_run self max_pages); [|discriminate].
      now injection Hs as <-. }
    split; [exact Hdoi|].
    apply scrape_inv in Hs as (st & _ & -> & (_ & _ & _ & _ & -> & _)).
    destruct (merge_extends (collected_reactions self) (observed (events st)))
      as (added & -> & _).
    rewrite List.length_app. lia.
Qed.

Lemma summary_counts_witness :
  get_summary (__init__ default_doi) =
    JDict [ ("total_reactions", JInt 0); ("doi", JStr default_doi) ]%string /\
  forall (world : Collaborators) max_pages self',
    scrape (__init__ default_doi) max_pages = Some self' ->
    doi self' = doi (__init__ default_doi) /\
    (length (collected_reactions (__init__ default_doi))
     <= length (collected_reactions self'))%nat.
Proof.
  apply (summary_counts (__init__ default_doi)). apply reachable_init.
Defined.

(** X15. The document [to_json] serializes loses nothing: it determines
    the DOI, the timestamp and the records, and its count is the length of
    its list of reactions and the count of the summary.  Without a path,
    or with an empty one, [to_json] opens no file: it returns the
    serialized text and leaves the files as they were.  With any other
    path it makes one write, of the serialized text to that path: it
    returns exactly when the system accepts the write, then with that text
    and the files the write left, and it fails when the system refuses. *)
Theorem to_json_document {fs : Type}
  (write_file : fs -> string -> string -> option fs)
  dumps timestamp self filepath (files : fs) :
  (forall self' timestamp',
     to_json_data self timestamp = to_json_data self' timestamp' ->
     self = self' /\ timestamp = timestamp') /\
  (exists count reactions,
     to_json_data self timestamp =
       JDict [ ("metadata",
                JDict [ ("doi", JStr (doi self));
                        ("total_reactions", JInt count);
                        ("scraped_at", JStr timestamp) ]);
               ("reactions", JList reactions) ]%string /\
     count = Z.of_nat (length reactions) /\
     get_summary self =
       JDict [ ("total_reactions", JInt count); ("doi", JStr (doi self)) ]%string) /\
  (filepath = None \/ filepath = Some EmptyString ->
   to_json write_file dumps timestamp self filepath files =
     Some (dumps (to_json_data self timestamp), files)) /\
  (forall path, filepath = Some path -> path <> EmptyString ->
     (forall text files',
        to_json write_file dumps timestamp self filepath files
          = Some (text, files') <->
        text = dumps (to_json_data self timestamp) /\
        write_file files path text = Some files') /\
     (to_json write_file dumps timestamp self filepath files = None <->
      write_file files path (dumps (to_json_data self timestamp)) = None)).
Proof.
  split; [|split; [|split]].
  - intros self' timestamp'. destruct self as [d l], self' as [d' l'].
    unfold to_json_data. cbn. intros [= -> _ -> E].
    apply map_asdict_inj in E. now subst.
  - eexists _, _. split; [reflexivity|]. split; [|reflexivity].
    now rewrite List.length_map.
  - intros [-> | ->]; reflexivity.
  - intros path -> Hne. unfold to_json.
    apply truthy_nonempty in Hne. rewrite Hne.
    destruct (write_file files path (dumps (to_json_data self timestamp)))
      as [files1|] eqn:Hw.
    + split; [|split; discriminate].
      intros text files'. split.
      * intros [= <- <-]. now split.
      * intros [-> Hw']. congruence.
    + split; [|split; reflexivity].
      intros text files'. split; [discriminate|].
      intros [-> Hw']. congruence.
Qed.

Lemma to_json_document_witness :
  to_json flat_write (fun _ => "{}"%string) "2024-01-01" (__init__ default_doi)
    (Some "out.json"%string) ∅
  = Some ("{}"%string, <["out.json"%string := "{}"%string]> ∅) /\
  to_json flat_write (fun _ => "{}"%string) "2024-01-01" (__init__ default_doi)
    (Some "out/"%string) ∅
  = None.
Proof.
  split.
  - apply (proj1 (proj2 (proj2 (proj2
             (to_json_document flat_write (fun _ => "{}"%string) "2024-01-01"
                (__init__ default_doi) (Some "out.json"%string) ∅)))
             "out.json"%string eq_refl ltac:(discriminate))).
    split; reflexivity.
  - apply (proj2 (proj2 (proj2 (proj2
             (to_json_document flat_write (fun _ => "{}"%string) "2024-01-01"
                (__init__ default_doi) (Some "out/"%string) ∅)))
             "out/"%string eq_refl ltac:(discriminate))).
    reflexivity.
Defined.
